(** * smartproxy, redis/command.go: commands, their replies and the RESP formatters

    A shallow embedding of the command family of [redis/command.go]: the
    embedded [baseCmd], the fifteen command structs that implement [Cmder],
    their [reset], [parseReply] and [Reply] methods, and the [Format*]
    functions that re-encode a stored value as RESP bytes.

    Go values are modelled as follows.
    - [string] is [string] (a sequence of bytes, [len] is [String.length]);
      [[]byte] is [list byte]; a nil slice is the empty list, which is how
      [len], [range] and [append] treat it.
    - [int], [int64] and [time.Duration] are [Z]; the one multiplication of
      the file wraps at 64 bits ([wrap64]).
    - [float64] is the IEEE value as [SpecFloat.spec_float].
    - [interface{}] is the inductive [iface], one constructor per dynamic
      type that occurs in the file, [INil] for the nil interface and
      [IOther] for a value of any further type.
    - a nilable [error] is [option error]; a nilable [*time.Duration] is
      [option Z].
    - a method with a pointer receiver is a function from the receiver's
      state to its new state; a call that may panic returns [result]. *)

From Stdlib Require Import ZArith String Ascii List DecimalString Strings.Byte Lia.
From Stdlib Require Floats.SpecFloat.
From stdpp Require Import gmap strings list.

Local Open Scope Z_scope.

(** ** Strings, bytes and [bytes.Buffer] *)

Definition bytes : Type := list byte.

(** The two bytes written as [\r\n] in the Go string literals. *)
Definition CRLF : string :=
  String (ascii_of_nat 13) (String (ascii_of_nat 10) EmptyString).

(** The conversion [[]byte(s)]. *)
Definition bytes_of (s : string) : bytes := list_byte_of_string s.

(** [len(s)] of a string, as a Go [int]. *)
Definition len (s : string) : Z := Z.of_nat (String.length s).

(** [bytes.Buffer], by its contents. *)
Definition Buffer : Type := list byte.
Definition Buffer_zero : Buffer := [].
Definition WriteByte (c : byte) (b : Buffer) : Buffer := b ++ [c].
Definition WriteString (s : string) (b : Buffer) : Buffer := b ++ bytes_of s.
Definition Bytes (b : Buffer) : bytes := b.

(** ** Integers *)

(** Two's complement wrap-around of a 64-bit signed result. *)
Definition wrap64 (z : Z) : Z := (z + 2 ^ 63) mod 2 ^ 64 - 2 ^ 63.

(** [time.Millisecond], in nanoseconds. *)
Definition Millisecond : Z := 1000000.

(** Modelled from the spec: [formatInt] (the repository's helper behind
    [FormatInt], not part of command.go) renders a signed 64-bit integer in
    decimal, a leading [-] for negatives, as the frame [:42\r\n] for 42
    requires. *)
Definition formatInt (i : Z) : string := NilZero.string_of_int (Z.to_int i).

(** Modelled from the spec: [util.Itoa] (package smartproxy/util, not part of
    command.go) renders an [int] in decimal; it writes the byte counts and
    element counts of the frames. *)
Definition Itoa (i : Z) : string := NilZero.string_of_int (Z.to_int i).

(** ** Floats *)

Abbreviation float64 := SpecFloat.spec_float.

(** The float64 constant [1.5]: 3 * 2^51 * 2^-52. *)
Definition float_1_5 : float64 := SpecFloat.S754_finite false 6755399441055744 (-52).

(** ** Errors *)

(** Modelled from the spec: the sentinel [Nil] lives in error.go, which is
    not part of command.go. An [error] value is observed here in two ways
    only: by identity ([err == Nil]) and by its message ([err.Error()]); the
    sentinel's message is the text the [Reply] methods compare against,
    [redis: nil]. Every other error value is represented by its message; such
    a value is never identical to [Nil], whatever its message. *)
Inductive error : Type :=
| Nil : error
| errorString (s : string) : error.

Definition Error (e : error) : string :=
  match e with
  | Nil => "redis: nil"
  | errorString s => s
  end.

#[global] Instance error_eq_dec : EqDecision error.
Proof. solve_decision. Defined.

(** [fmt.Errorf(format)] with a constant format and the message it yields. *)
Definition Errorf (msg : string) : error := errorString msg.

(** ** Decoded data *)

(** Modelled from the spec: the sorted-set member and score pair [Z] is
    declared outside command.go; named [ZPair] here, [Z] being the integers. *)
Record ZPair : Type := mkZ { Score : float64; Member : string }.

Record ClusterSlotInfo : Type := mkClusterSlotInfo {
  Start : Z;
  End_ : Z;  (* the field [End] *)
  Addrs : list string
}.

(** [interface{}]: a value together with its dynamic type. *)
#[local] Unset Elimination Schemes.
Inductive iface : Type :=
| INil : iface
| IInt (n : Z) : iface
| IInt64 (n : Z) : iface
| IString (s : string) : iface
| IFloat64 (f : float64) : iface
| IBool (b : bool) : iface
| IDuration (d : Z) : iface
| ISlice (l : list iface) : iface
| IStringSlice (l : list string) : iface
| IBoolSlice (l : list bool) : iface
| IStringStringMap (m : gmap string string) : iface
| IStringIntMap (m : gmap string Z) : iface
| IZSlice (l : list ZPair) : iface
| IClusterSlotInfoSlice (l : list ClusterSlotInfo) : iface
| IOther (T : string) : iface.
#[local] Set Elimination Schemes.

(** The outcome of evaluating an expression that may panic. *)
Inductive result (A : Type) : Type :=
| Ok (a : A) : result A
| Panic : result A.
Arguments Ok {A} a.
Arguments Panic {A}.

(** The single-value type assertions [v.(T)] of the file: they panic when the
    dynamic type of [v] is not [T], and so for the nil interface. *)
Definition assert_int64 (v : iface) : result Z :=
  match v with IInt64 n => Ok n | _ => Panic end.
Definition assert_string (v : iface) : result string :=
  match v with IString s => Ok s | _ => Panic end.
Definition assert_slice (v : iface) : result (list iface) :=
  match v with ISlice l => Ok l | _ => Panic end.
Definition assert_stringSlice (v : iface) : result (list string) :=
  match v with IStringSlice l => Ok l | _ => Panic end.
Definition assert_boolSlice (v : iface) : result (list bool) :=
  match v with IBoolSlice l => Ok l | _ => Panic end.
Definition assert_stringStringMap (v : iface) : result (gmap string string) :=
  match v with IStringStringMap m => Ok m | _ => Panic end.
Definition assert_stringIntMap (v : iface) : result (gmap string Z) :=
  match v with IStringIntMap m => Ok m | _ => Panic end.
Definition assert_zSlice (v : iface) : result (list ZPair) :=
  match v with IZSlice l => Ok l | _ => Panic end.
Definition assert_clusterSlotInfoSlice (v : iface) : result (list ClusterSlotInfo) :=
  match v with IClusterSlotInfoSlice l => Ok l | _ => Panic end.

(** The index expression [l[i]]: it panics out of range. *)
Definition index {A : Type} (l : list A) (i : Z) : result A :=
  if (0 <=? i) && (i <? Z.of_nat (length l)) then
    match l !! Z.to_nat i with
    | Some x => Ok x
    | None => Panic
    end
  else Panic.

(** ** baseCmd *)

Record baseCmd : Type := mkBaseCmd {
  _args : list string;
  err : option error;
  _clusterKeyPos : Z;
  _writeTimeout : option Z;
  _readTimeout : option Z
}.

(** The composite literal [baseCmd{_args: args, _clusterKeyPos: pos}]. *)
Definition baseCmd_lit (args : list string) (pos : Z) : baseCmd :=
  mkBaseCmd args None pos None None.

Definition baseCmd_Err (cmd : baseCmd) : option error :=
  match err cmd with
  | Some e => Some e
  | None => None
  end.

Definition baseCmd_args (cmd : baseCmd) : list string := _args cmd.

Definition baseCmd_readTimeout (cmd : baseCmd) : option Z := _readTimeout cmd.

Definition baseCmd_setReadTimeout (d : Z) (cmd : baseCmd) : baseCmd :=
  mkBaseCmd (_args cmd) (err cmd) (_clusterKeyPos cmd) (_writeTimeout cmd) (Some d).

Definition baseCmd_writeTimeout (cmd : baseCmd) : option Z := _writeTimeout cmd.

Definition baseCmd_clusterKey (cmd : baseCmd) : result string :=
  if (0 <? _clusterKeyPos cmd) && (_clusterKeyPos cmd <? Z.of_nat (length (_args cmd))) then
    index (_args cmd) (_clusterKeyPos cmd)
  else Ok ""%string.

Definition baseCmd_setWriteTimeout (d : Z) (cmd : baseCmd) : baseCmd :=
  mkBaseCmd (_args cmd) (err cmd) (_clusterKeyPos cmd) (Some d) (_readTimeout cmd).

(** The assignment [cmd.err = e] to the field of the embedded struct. *)
Definition with_err (e : option error) (cmd : baseCmd) : baseCmd :=
  mkBaseCmd (_args cmd) e (_clusterKeyPos cmd) (_writeTimeout cmd) (_readTimeout cmd).

Definition baseCmd_setErr (e : option error) (cmd : baseCmd) : baseCmd :=
  with_err e cmd.

(** ** The command structs *)

Record Cmd : Type := mkCmd { Cmd_base : baseCmd; Cmd_val : iface }.
Record SliceCmd : Type := mkSliceCmd { SliceCmd_base : baseCmd; SliceCmd_val : list iface }.
Record StatusCmd : Type := mkStatusCmd { StatusCmd_base : baseCmd; StatusCmd_val : string }.
Record IntCmd : Type := mkIntCmd { IntCmd_base : baseCmd; IntCmd_val : Z }.
Record DurationCmd : Type := mkDurationCmd {
  DurationCmd_base : baseCmd;
  DurationCmd_val : Z;
  precision : Z
}.
Record BoolCmd : Type := mkBoolCmd { BoolCmd_base : baseCmd; BoolCmd_val : bool }.
Record StringCmd : Type := mkStringCmd { StringCmd_base : baseCmd; StringCmd_val : string }.
Record FloatCmd : Type := mkFloatCmd { FloatCmd_base : baseCmd; FloatCmd_val : float64 }.
Record StringSliceCmd : Type :=
  mkStringSliceCmd { StringSliceCmd_base : baseCmd; StringSliceCmd_val : list string }.
Record BoolSliceCmd : Type :=
  mkBoolSliceCmd { BoolSliceCmd_base : baseCmd; BoolSliceCmd_val : list bool }.
Record StringStringMapCmd : Type :=
  mkStringStringMapCmd { StringStringMapCmd_base : baseCmd; StringStringMapCmd_val : gmap string string }.
Record StringIntMapCmd : Type :=
  mkStringIntMapCmd { StringIntMapCmd_base : baseCmd; StringIntMapCmd_val : gmap string Z }.
Record ZSliceCmd : Type := mkZSliceCmd { ZSliceCmd_base : baseCmd; ZSliceCmd_val : list ZPair }.
Record ScanCmd : Type := mkScanCmd { ScanCmd_base : baseCmd; cursor : Z; keys : list string }.
Record ClusterSlotCmd : Type :=
  mkClusterSlotCmd { ClusterSlotCmd_base : baseCmd; ClusterSlotCmd_val : list ClusterSlotInfo }.

(** The constructors. [NewCmd] and [newKeylessStatusCmd] leave the key
    position at its zero value; every other constructor sets it to 1. *)
Definition NewCmd (args : list string) : Cmd := mkCmd (baseCmd_lit args 0) INil.
Definition NewSliceCmd (args : list string) : SliceCmd := mkSliceCmd (baseCmd_lit args 1) [].
Definition NewStatusCmd (args : list string) : StatusCmd := mkStatusCmd (baseCmd_lit args 1) "".
Definition newKeylessStatusCmd (args : list string) : StatusCmd :=
  mkStatusCmd (baseCmd_lit args 0) "".
Definition NewIntCmd (args : list string) : IntCmd := mkIntCmd (baseCmd_lit args 1) 0.
Definition NewDurationCmd (precision : Z) (args : list string) : DurationCmd :=
  mkDurationCmd (baseCmd_lit args 1) 0 precision.
Definition NewBoolCmd (args : list string) : BoolCmd := mkBoolCmd (baseCmd_lit args 1) false.
Definition NewStringCmd (args : list string) : StringCmd := mkStringCmd (baseCmd_lit args 1) "".
Definition NewFloatCmd (args : list string) : FloatCmd :=
  mkFloatCmd (baseCmd_lit args 1) (SpecFloat.S754_zero false).
Definition NewStringSliceCmd (args : list string) : StringSliceCmd :=
  mkStringSliceCmd (baseCmd_lit args 1) [].
Definition NewBoolSliceCmd (args : list string) : BoolSliceCmd :=
  mkBoolSliceCmd (baseCmd_lit args 1) [].
Definition NewStringStringMapCmd (args : list string) : StringStringMapCmd :=
  mkStringStringMapCmd (baseCmd_lit args 1) ∅.
Definition NewStringIntMapCmd (args : list string) : StringIntMapCmd :=
  mkStringIntMapCmd (baseCmd_lit args 1) ∅.
Definition NewZSliceCmd (args : list string) : ZSliceCmd := mkZSliceCmd (baseCmd_lit args 1) [].
Definition NewScanCmd (args : list string) : ScanCmd := mkScanCmd (baseCmd_lit args 1) 0 [].
Definition NewClusterSlotCmd (args : list string) : ClusterSlotCmd :=
  mkClusterSlotCmd (baseCmd_lit args 1) [].

(** [reset]: the value fields go back to their zero values and [err] to nil;
    the other fields of the embedded [baseCmd] are not assigned. *)
Definition Cmd_reset (cmd : Cmd) : Cmd := mkCmd (with_err None (Cmd_base cmd)) INil.
Definition SliceCmd_reset (cmd : SliceCmd) : SliceCmd :=
  mkSliceCmd (with_err None (SliceCmd_base cmd)) [].
Definition StatusCmd_reset (cmd : StatusCmd) : StatusCmd :=
  mkStatusCmd (with_err None (StatusCmd_base cmd)) "".
Definition IntCmd_reset (cmd : IntCmd) : IntCmd := mkIntCmd (with_err None (IntCmd_base cmd)) 0.
Definition DurationCmd_reset (cmd : DurationCmd) : DurationCmd :=
  mkDurationCmd (with_err None (DurationCmd_base cmd)) 0 (precision cmd).
Definition BoolCmd_reset (cmd : BoolCmd) : BoolCmd :=
  mkBoolCmd (with_err None (BoolCmd_base cmd)) false.
Definition StringCmd_reset (cmd : StringCmd) : StringCmd :=
  mkStringCmd (with_err None (StringCmd_base cmd)) "".
Definition FloatCmd_reset (cmd : FloatCmd) : FloatCmd :=
  mkFloatCmd (with_err None (FloatCmd_base cmd)) (SpecFloat.S754_zero false).
Definition StringSliceCmd_reset (cmd : StringSliceCmd) : StringSliceCmd :=
  mkStringSliceCmd (with_err None (StringSliceCmd_base cmd)) [].
Definition BoolSliceCmd_reset (cmd : BoolSliceCmd) : BoolSliceCmd :=
  mkBoolSliceCmd (with_err None (BoolSliceCmd_base cmd)) [].
Definition StringStringMapCmd_reset (cmd : StringStringMapCmd) : StringStringMapCmd :=
  mkStringStringMapCmd (with_err None (StringStringMapCmd_base cmd)) ∅.
Definition StringIntMapCmd_reset (cmd : StringIntMapCmd) : StringIntMapCmd :=
  mkStringIntMapCmd (with_err None (StringIntMapCmd_base cmd)) ∅.
Definition ZSliceCmd_reset (cmd : ZSliceCmd) : ZSliceCmd :=
  mkZSliceCmd (with_err None (ZSliceCmd_base cmd)) [].
Definition ScanCmd_reset (cmd : ScanCmd) : ScanCmd :=
  mkScanCmd (with_err None (ScanCmd_base cmd)) 0 [].
Definition ClusterSlotCmd_reset (cmd : ClusterSlotCmd) : ClusterSlotCmd :=
  mkClusterSlotCmd (with_err None (ClusterSlotCmd_base cmd)) [].

(** ** The formatters that need nothing from outside the file *)

Definition FormatStatus (val : string) : bytes :=
  let b := Buffer_zero in
  let b := WriteString "+" b in
  let b := WriteString val b in
  let b := WriteString CRLF b in
  Bytes b.

Definition FormatInt (val : Z) : bytes :=
  let b := Buffer_zero in
  let b := WriteByte ":" b in
  let b := WriteString (formatInt val) b in
  let b := WriteString CRLF b in
  Bytes b.

Definition FormatBool (val : bool) : bytes :=
  let b := Buffer_zero in
  let b := WriteByte ":" b in
  let b := if val then WriteByte "1" b else WriteByte "0" b in
  let b := WriteString CRLF b in
  Bytes b.

Definition FormatString (val : string) : bytes :=
  let b := Buffer_zero in
  let b := WriteByte "$" b in
  let b := WriteString (Itoa (len val)) b in
  let b := WriteString CRLF b in
  let b := WriteString val b in
  let b := WriteString CRLF b in
  Bytes b.

(** The body of the [range] loop of [FormatStringSlice]. *)
Fixpoint FormatStringSlice_loop (val : list string) (b : Buffer) : Buffer :=
  match val with
  | [] => b
  | v :: rest =>
      let b := WriteByte "$" b in
      let b := WriteString (Itoa (len v)) b in
      let b := WriteString CRLF b in
      let b := WriteString v b in
      let b := WriteString CRLF b in
      FormatStringSlice_loop rest b
  end.

Definition FormatStringSlice (val : list string) : bytes :=
  let b := Buffer_zero in
  let b := WriteByte "*" b in
  let b := WriteString (Itoa (Z.of_nat (length val))) b in
  let b := WriteString CRLF b in
  let b := FormatStringSlice_loop val b in
  Bytes b.

(** ** What the file takes from the rest of the package *)

(** The element parsers handed to the wire decoder; [nil] is [None]. *)
Inductive multiBulkParser : Type :=
| parseSlice
| parseStringSlice
| parseBoolSlice
| parseStringStringMap
| parseStringIntMap
| parseZSlice
| parseClusterSlotInfoSlice.

(** ** The interface [Cmder]

    A [Cmder] is one of the fifteen command structs, as the conformance block
    at the head of the file lists them. *)
Inductive Cmder : Type :=
| CCmd (c : Cmd)
| CSliceCmd (c : SliceCmd)
| CStatusCmd (c : StatusCmd)
| CIntCmd (c : IntCmd)
| CDurationCmd (c : DurationCmd)
| CBoolCmd (c : BoolCmd)
| CStringCmd (c : StringCmd)
| CFloatCmd (c : FloatCmd)
| CStringSliceCmd (c : StringSliceCmd)
| CBoolSliceCmd (c : BoolSliceCmd)
| CStringStringMapCmd (c : StringStringMapCmd)
| CStringIntMapCmd (c : StringIntMapCmd)
| CZSliceCmd (c : ZSliceCmd)
| CScanCmd (c : ScanCmd)
| CClusterSlotCmd (c : ClusterSlotCmd).

(** The embedded [baseCmd] of a command, and its replacement. *)
Definition base (c : Cmder) : baseCmd :=
  match c with
  | CCmd c => Cmd_base c
  | CSliceCmd c => SliceCmd_base c
  | CStatusCmd c => StatusCmd_base c
  | CIntCmd c => IntCmd_base c
  | CDurationCmd c => DurationCmd_base c
  | CBoolCmd c => BoolCmd_base c
  | CStringCmd c => StringCmd_base c
  | CFloatCmd c => FloatCmd_base c
  | CStringSliceCmd c => StringSliceCmd_base c
  | CBoolSliceCmd c => BoolSliceCmd_base c
  | CStringStringMapCmd c => StringStringMapCmd_base c
  | CStringIntMapCmd c => StringIntMapCmd_base c
  | CZSliceCmd c => ZSliceCmd_base c
  | CScanCmd c => ScanCmd_base c
  | CClusterSlotCmd c => ClusterSlotCmd_base c
  end.

Definition with_base (f : baseCmd -> baseCmd) (c : Cmder) : Cmder :=
  match c with
  | CCmd c => CCmd (mkCmd (f (Cmd_base c)) (Cmd_val c))
  | CSliceCmd c => CSliceCmd (mkSliceCmd (f (SliceCmd_base c)) (SliceCmd_val c))
  | CStatusCmd c => CStatusCmd (mkStatusCmd (f (StatusCmd_base c)) (StatusCmd_val c))
  | CIntCmd c => CIntCmd (mkIntCmd (f (IntCmd_base c)) (IntCmd_val c))
  | CDurationCmd c =>
      CDurationCmd (mkDurationCmd (f (DurationCmd_base c)) (DurationCmd_val c) (precision c))
  | CBoolCmd c => CBoolCmd (mkBoolCmd (f (BoolCmd_base c)) (BoolCmd_val c))
  | CStringCmd c => CStringCmd (mkStringCmd (f (StringCmd_base c)) (StringCmd_val c))
  | CFloatCmd c => CFloatCmd (mkFloatCmd (f (FloatCmd_base c)) (FloatCmd_val c))
  | CStringSliceCmd c =>
      CStringSliceCmd (mkStringSliceCmd (f (StringSliceCmd_base c)) (StringSliceCmd_val c))
  | CBoolSliceCmd c =>
      CBoolSliceCmd (mkBoolSliceCmd (f (BoolSliceCmd_base c)) (BoolSliceCmd_val c))
  | CStringStringMapCmd c =>
      CStringStringMapCmd
        (mkStringStringMapCmd (f (StringStringMapCmd_base c)) (StringStringMapCmd_val c))
  | CStringIntMapCmd c =>
      CStringIntMapCmd (mkStringIntMapCmd (f (StringIntMapCmd_base c)) (StringIntMapCmd_val c))
  | CZSliceCmd c => CZSliceCmd (mkZSliceCmd (f (ZSliceCmd_base c)) (ZSliceCmd_val c))
  | CScanCmd c => CScanCmd (mkScanCmd (f (ScanCmd_base c)) (cursor c) (keys c))
  | CClusterSlotCmd c =>
      CClusterSlotCmd (mkClusterSlotCmd (f (ClusterSlotCmd_base c)) (ClusterSlotCmd_val c))
  end.

(** The methods every struct takes over from the embedded [baseCmd]. *)
Definition args (c : Cmder) : list string := baseCmd_args (base c).
Definition Err (c : Cmder) : option error := baseCmd_Err (base c).
Definition clusterKey (c : Cmder) : result string := baseCmd_clusterKey (base c).
Definition readTimeout (c : Cmder) : option Z := baseCmd_readTimeout (base c).
Definition writeTimeout (c : Cmder) : option Z := baseCmd_writeTimeout (base c).
Definition setErr (e : option error) (c : Cmder) : Cmder := with_base (baseCmd_setErr e) c.

(** The methods each struct defines itself. *)
Definition reset (c : Cmder) : Cmder :=
  match c with
  | CCmd c => CCmd (Cmd_reset c)
  | CSliceCmd c => CSliceCmd (SliceCmd_reset c)
  | CStatusCmd c => CStatusCmd (StatusCmd_reset c)
  | CIntCmd c => CIntCmd (IntCmd_reset c)
  | CDurationCmd c => CDurationCmd (DurationCmd_reset c)
  | CBoolCmd c => CBoolCmd (BoolCmd_reset c)
  | CStringCmd c => CStringCmd (StringCmd_reset c)
  | CFloatCmd c => CFloatCmd (FloatCmd_reset c)
  | CStringSliceCmd c => CStringSliceCmd (StringSliceCmd_reset c)
  | CBoolSliceCmd c => CBoolSliceCmd (BoolSliceCmd_reset c)
  | CStringStringMapCmd c => CStringStringMapCmd (StringStringMapCmd_reset c)
  | CStringIntMapCmd c => CStringIntMapCmd (StringIntMapCmd_reset c)
  | CZSliceCmd c => CZSliceCmd (ZSliceCmd_reset c)
  | CScanCmd c => CScanCmd (ScanCmd_reset c)
  | CClusterSlotCmd c => CClusterSlotCmd (ClusterSlotCmd_reset c)
  end.

(** The value a command holds, as its [Val] method returns it, each returned
    value boxed in an [interface{}] ([ScanCmd.Val] returns two). *)
Definition Val (c : Cmder) : list iface :=
  match c with
  | CCmd c => [Cmd_val c]
  | CSliceCmd c => [ISlice (SliceCmd_val c)]
  | CStatusCmd c => [IString (StatusCmd_val c)]
  | CIntCmd c => [IInt64 (IntCmd_val c)]
  | CDurationCmd c => [IDuration (DurationCmd_val c)]
  | CBoolCmd c => [IBool (BoolCmd_val c)]
  | CStringCmd c => [IString (StringCmd_val c)]
  | CFloatCmd c => [IFloat64 (FloatCmd_val c)]
  | CStringSliceCmd c => [IStringSlice (StringSliceCmd_val c)]
  | CBoolSliceCmd c => [IBoolSlice (BoolSliceCmd_val c)]
  | CStringStringMapCmd c => [IStringStringMap (StringStringMapCmd_val c)]
  | CStringIntMapCmd c => [IStringIntMap (StringIntMapCmd_val c)]
  | CZSliceCmd c => [IZSlice (ZSliceCmd_val c)]
  | CScanCmd c => [IInt64 (cursor c); IStringSlice (keys c)]
  | CClusterSlotCmd c => [IClusterSlotInfoSlice (ClusterSlotCmd_val c)]
  end.

(** ** Batches

    [setCmdsErr] and [resetCmds] take a slice of interface values, each a
    pointer to a command; two entries may point to the same command. The
    commands live in a store indexed by address, and the slice is the list
    of addresses. An address that is not allocated cannot occur in Go; the
    store is left as it is there. *)
Abbreviation store := (gmap positive Cmder).

Fixpoint setCmdsErr (cmds : list positive) (e : option error) (h : store) : store :=
  match cmds with
  | [] => h
  | cmd :: rest => setCmdsErr rest e (alter (setErr e) cmd h)
  end.

Fixpoint resetCmds (cmds : list positive) (h : store) : store :=
  match cmds with
  | [] => h
  | cmd :: rest => resetCmds rest (alter reset cmd h)
  end.

(** ** Predicates the statements use *)

(** [isZero v]: [v] holds the zero value of its dynamic type. *)
Definition isZero (v : iface) : bool :=
  match v with
  | INil => true
  | IInt n => n =? 0
  | IInt64 n => n =? 0
  | IString s => String.eqb s ""
  | IFloat64 f => match f with SpecFloat.S754_zero false => true | _ => false end
  | IBool b => negb b
  | IDuration d => d =? 0
  | ISlice l => match l with [] => true | _ => false end
  | IStringSlice l => match l with [] => true | _ => false end
  | IBoolSlice l => match l with [] => true | _ => false end
  | IStringStringMap m => bool_decide (m = ∅)
  | IStringIntMap m => bool_decide (m = ∅)
  | IZSlice l => match l with [] => true | _ => false end
  | IClusterSlotInfoSlice l => match l with [] => true | _ => false end
  | IOther _ => false
  end.

(** [FormatSlice] has an arm for the nil interface and for the dynamic types
    int, int64, string and float64; every other element is unsupported. *)
Definition unsupported (v : iface) : bool :=
  match v with
  | INil | IInt _ | IInt64 _ | IString _ | IFloat64 _ => false
  | _ => true
  end.

(** The variants whose [Reply] formats the stored value or error; the other
    seven return nil. *)
Definition formats (c : Cmder) : bool :=
  match c with
  | CSliceCmd _ | CStatusCmd _ | CIntCmd _ | CDurationCmd _
  | CBoolCmd _ | CStringCmd _ | CFloatCmd _ | CStringSliceCmd _ => true
  | _ => false
  end.

(** The dynamic type a variant asserts on the decoded value, as a test on the
    value; [None] for [Cmd], which stores the value as it is, and for
    [BoolCmd], which switches on the type. *)
Definition asserted (c : Cmder) : option (iface -> bool) :=
  match c with
  | CCmd _ | CBoolCmd _ => None
  | CSliceCmd _ | CScanCmd _ => Some (fun v => match v with ISlice _ => true | _ => false end)
  | CStatusCmd _ | CStringCmd _ | CFloatCmd _ =>
      Some (fun v => match v with IString _ => true | _ => false end)
  | CIntCmd _ | CDurationCmd _ => Some (fun v => match v with IInt64 _ => true | _ => false end)
  | CStringSliceCmd _ => Some (fun v => match v with IStringSlice _ => true | _ => false end)
  | CBoolSliceCmd _ => Some (fun v => match v with IBoolSlice _ => true | _ => false end)
  | CStringStringMapCmd _ =>
      Some (fun v => match v with IStringStringMap _ => true | _ => false end)
  | CStringIntMapCmd _ => Some (fun v => match v with IStringIntMap _ => true | _ => false end)
  | CZSliceCmd _ => Some (fun v => match v with IZSlice _ => true | _ => false end)
  | CClusterSlotCmd _ =>
      Some (fun v => match v with IClusterSlotInfoSlice _ => true | _ => false end)
  end.

(** The element parser a variant hands to the decoder. *)
Definition parser_of (c : Cmder) : option multiBulkParser :=
  match c with
  | CCmd _ | CSliceCmd _ | CScanCmd _ => Some parseSlice
  | CStatusCmd _ | CIntCmd _ | CDurationCmd _ | CBoolCmd _ | CStringCmd _ | CFloatCmd _ => None
  | CStringSliceCmd _ => Some parseStringSlice
  | CBoolSliceCmd _ => Some parseBoolSlice
  | CStringStringMapCmd _ => Some parseStringStringMap
  | CStringIntMapCmd _ => Some parseStringIntMap
  | CZSliceCmd _ => Some parseZSlice
  | CClusterSlotCmd _ => Some parseClusterSlotInfoSlice
  end.

(** ** Strings of commands and further predicates *)

(** [strings.Join(elems, sep)]. *)
Definition Join (elems : list string) (sep : string) : string := String.concat sep elems.

(** [ends_with_CRLF bs]: the bytes end with the two bytes that close a frame. *)
Definition ends_with_CRLF (bs : bytes) : Prop := exists p : bytes, bs = p ++ bytes_of CRLF.

(** The variants whose [parseReply] stores the asserted value as it is and
    assigns nothing else. [DurationCmd] scales the value, [FloatCmd] and
    [ScanCmd] parse it and assign the error field. *)
Definition stores_asserted (c : Cmder) : bool :=
  match c with
  | CSliceCmd _ | CStatusCmd _ | CIntCmd _ | CStringCmd _ | CStringSliceCmd _
  | CBoolSliceCmd _ | CStringStringMapCmd _ | CStringIntMapCmd _ | CZSliceCmd _
  | CClusterSlotCmd _ => true
  | _ => false
  end.

(** The value each [String] method hands to [cmdString], boxed: the value
    field, and for [ScanCmd] the keys. *)
Definition stringed (c : Cmder) : iface :=
  match c with
  | CCmd c => Cmd_val c
  | CSliceCmd c => ISlice (SliceCmd_val c)
  | CStatusCmd c => IString (StatusCmd_val c)
  | CIntCmd c => IInt64 (IntCmd_val c)
  | CDurationCmd c => IDuration (DurationCmd_val c)
  | CBoolCmd c => IBool (BoolCmd_val c)
  | CStringCmd c => IString (StringCmd_val c)
  | CFloatCmd c => IFloat64 (FloatCmd_val c)
  | CStringSliceCmd c => IStringSlice (StringSliceCmd_val c)
  | CBoolSliceCmd c => IBoolSlice (BoolSliceCmd_val c)
  | CStringStringMapCmd c => IStringStringMap (StringStringMapCmd_val c)
  | CStringIntMapCmd c => IStringIntMap (StringIntMapCmd_val c)
  | CZSliceCmd c => IZSlice (ZSliceCmd_val c)
  | CScanCmd c => IStringSlice (keys c)
  | CClusterSlotCmd c => IClusterSlotInfoSlice (ClusterSlotCmd_val c)
  end.

(** ** Instances for the examples *)

(** A reader on which one reply has already been decoded, and the decoder
    that hands that reply out: the instance at which the examples run. *)
Definition decodedReply : Type := iface * option error.
Definition decoded (rd : decodedReply) (p : option multiBulkParser) : iface * option error := rd.

(** Parsers that reject every input, used where an example never reaches them. *)
Definition rejectInt (s : string) : Z * option error :=
  (0, Some (errorString "invalid syntax")).
Definition rejectFloat (s : string) : float64 * option error :=
  (SpecFloat.S754_zero false, Some (errorString "invalid syntax")).
(** A float renderer defined on the one float the examples format. *)
Definition renderFloat (f : float64) : string :=
  match f with
  | SpecFloat.S754_finite false 6755399441055744 (-52) => "1.5"
  | _ => ""
  end.

(** Duration renderers for the examples: whole milliseconds and whole seconds,
    in decimal. *)
Definition renderMs (d : Z) : string := formatInt (d ÷ Millisecond).
Definition renderSec (d : Z) : string := formatInt (d ÷ 1000000000).
(** An error standing for [TypeAssertedErr] in the examples. *)
Definition sampleTypeAssertedErr : error := errorString "redis: type asserted error".

(** A cursor parser defined on the cursor the examples use, and a printer
    for the values the examples print. *)
Definition acceptThree (s : string) : Z * option error :=
  if String.eqb s "3" then (3, None) else (0, Some (errorString "invalid syntax")).
Definition samplePrint (v : iface) : string :=
  match v with
  | IInt64 n => formatInt n
  | IString s => s
  | _ => "?"
  end.
Definition sampleScanCmd : ScanCmd := NewScanCmd ["SCAN"; "0"].
Definition sampleDurationCmd : DurationCmd := NewDurationCmd 1000000000 ["TTL"; "k"].
Definition wrongType : error := errorString "WRONGTYPE Operation against a key".
(** A Bool command that holds an error, as [setErr] or a failed decode leaves it. *)
Definition failedBoolCmd : BoolCmd :=
  mkBoolCmd (mkBaseCmd ["SET"; "k"; "v"; "NX"] (Some wrongType) 1 None None) false.

(** Commands and a store for the examples. *)
Definition sampleIntCmd : IntCmd := NewIntCmd ["INCR"; "hits"].
Definition sampleBoolCmd : BoolCmd := NewBoolCmd ["SET"; "k"; "v"; "NX"].
Definition sampleStringCmd : StringCmd := NewStringCmd ["GET"; "user:1"].
Definition samplePing : StatusCmd := mkStatusCmd (baseCmd_lit ["PING"] 1) "".
Definition nilGeneric : Cmd := mkCmd (mkBaseCmd ["EVAL"; "return nil"] (Some Nil) 0 None None) INil.
Definition nilIntCmd : IntCmd := mkIntCmd (mkBaseCmd ["INCR"; "hits"] (Some Nil) 1 None None) 0.
Definition lookalikeIntCmd : IntCmd :=
  mkIntCmd (mkBaseCmd ["INCR"; "hits"] (Some (errorString "redis: nil")) 1 None None) 0.
Definition sampleStore : gmap positive Cmder :=
  <[1%positive := CIntCmd (mkIntCmd (baseCmd_lit ["INCR"; "hits"] 1) 7)]>
    (<[2%positive := CStatusCmd (mkStatusCmd (baseCmd_lit ["PING"] 0) "PONG")]> ∅).
Definition sampleBatch : list positive := [1%positive; 2%positive; 1%positive].
Definition connReset : option error := Some (errorString "connection reset by peer").

Section Commands.

(** The wire decoder [parseReply(rd, p)] of the package, the [strconv]
    parsers, and the package's float and duration renderers are not part of
    command.go; neither is the sentinel [TypeAssertedErr]. The commands are
    defined over them. *)
Variable Reader : Type.
Variable parseReply : Reader -> option multiBulkParser -> iface * option error.
Variable ParseInt : string -> Z * option error.
Variable ParseFloat : string -> float64 * option error.
Variable formatFloat : float64 -> string.
Variable formatMs : Z -> string.
Variable formatSec : Z -> string.
Variable TypeAssertedErr : error.
(** [fmt.Sprint(val)] and [strconv.ParseUint(s, 10, 64)], of the Go library. *)
Variable Sprint : iface -> string.
Variable ParseUint : string -> Z * option error.

(** *** FormatSlice *)

(** One bulk-string frame, as each typed arm of the [switch] writes it. *)
Definition FormatSlice_bulk (d : string) (b : Buffer) : Buffer :=
  let b := WriteByte "$" b in
  let b := WriteString (Itoa (len d)) b in
  let b := WriteString CRLF b in
  let b := WriteString d b in
  let b := WriteString CRLF b in
  b.

(** The [range] loop of [FormatSlice]; the [default] arm returns at once,
    dropping the buffer. *)
Fixpoint FormatSlice_loop (val : list iface) (b : Buffer) : bytes :=
  match val with
  | [] => Bytes b
  | v :: rest =>
      match v with
      | INil =>
          let b := WriteString ("$-1" +:+ CRLF) b in
          FormatSlice_loop rest b
      | IInt n =>
          let d := formatInt n in
          FormatSlice_loop rest (FormatSlice_bulk d b)
      | IInt64 n =>
          let d := formatInt n in
          FormatSlice_loop rest (FormatSlice_bulk d b)
      | IString s =>
          let d := s in
          FormatSlice_loop rest (FormatSlice_bulk d b)
      | IFloat64 f =>
          let d := formatFloat f in
          FormatSlice_loop rest (FormatSlice_bulk d b)
      | _ =>
          let d := "-" +:+ Error TypeAssertedErr +:+ CRLF in
          bytes_of d
      end
  end.

Definition FormatSlice (val : list iface) : bytes :=
  let b := Buffer_zero in
  let b := WriteByte "*" b in
  let b := WriteString (Itoa (Z.of_nat (length val))) b in
  let b := WriteString CRLF b in
  FormatSlice_loop val b.

Definition FormatDuration (val : Z) (pre : Z) : bytes :=
  let b := Buffer_zero in
  let b := WriteByte ":" b in
  let b := if pre =? Millisecond then WriteString (formatMs val) b
           else WriteString (formatSec val) b in
  let b := WriteString CRLF b in
  Bytes b.

Definition FormatFloat (val : float64) : bytes :=
  let b := Buffer_zero in
  let b := WriteByte "$" b in
  let d := formatFloat val in
  let b := WriteString (Itoa (len d)) b in
  let b := WriteString CRLF b in
  let b := WriteString d b in
  let b := WriteString CRLF b in
  Bytes b.

(** *** Reply *)

Definition Cmd_Reply (cmd : Cmd) : bytes := [].

Definition SliceCmd_Reply (cmd : SliceCmd) : bytes :=
  match baseCmd_Err (SliceCmd_base cmd) with
  | Some err =>
      if String.eqb (Error err) "redis: nil" then bytes_of ("$-1" +:+ CRLF)
      else
        let d := "-" +:+ Error err +:+ CRLF in
        bytes_of d
  | None => FormatSlice (SliceCmd_val cmd)
  end.

Definition StatusCmd_Reply (cmd : StatusCmd) : bytes :=
  match baseCmd_Err (StatusCmd_base cmd) with
  | Some err =>
      if String.eqb (Error err) "redis: nil" then bytes_of ("$-1" +:+ CRLF)
      else
        let d := "-" +:+ Error err +:+ CRLF in
        bytes_of d
  | None => FormatStatus (StatusCmd_val cmd)
  end.

Definition IntCmd_Reply (cmd : IntCmd) : bytes :=
  match baseCmd_Err (IntCmd_base cmd) with
  | Some err =>
      if String.eqb (Error err) "redis: nil" then bytes_of ("$-1" +:+ CRLF)
      else
        let d := "-" +:+ Error err +:+ CRLF in
        bytes_of d
  | None => FormatInt (IntCmd_val cmd)
  end.

Definition DurationCmd_Reply (cmd : DurationCmd) : bytes :=
  match baseCmd_Err (DurationCmd_base cmd) with
  | Some err =>
      if String.eqb (Error err) "redis: nil" then bytes_of ("$-1" +:+ CRLF)
      else
        let d := "-" +:+ Error err +:+ CRLF in
        bytes_of d
  | None => FormatDuration (DurationCmd_val cmd) (precision cmd)
  end.

Definition BoolCmd_Reply (cmd : BoolCmd) : bytes :=
  match baseCmd_Err (BoolCmd_base cmd) with
  | Some err =>
      if String.eqb (Error err) "redis: nil" then bytes_of ("$-1" +:+ CRLF)
      else
        let d := "-" +:+ Error err +:+ CRLF in
        bytes_of d
  | None => FormatBool (BoolCmd_val cmd)
  end.

Definition StringCmd_Reply (cmd : StringCmd) : bytes :=
  match baseCmd_Err (StringCmd_base cmd) with
  | Some err =>
      if String.eqb (Error err) "redis: nil" then bytes_of ("$-1" +:+ CRLF)
      else
        let d := "-" +:+ Error err +:+ CRLF in
        bytes_of d
  | None => FormatString (StringCmd_val cmd)
  end.

Definition FloatCmd_Reply (cmd : FloatCmd) : bytes :=
  match baseCmd_Err (FloatCmd_base cmd) with
  | Some err =>
      if String.eqb (Error err) "redis: nil" then bytes_of ("$-1" +:+ CRLF)
      else
        let d := "-" +:+ Error err +:+ CRLF in
        bytes_of d
  | None => FormatFloat (FloatCmd_val cmd)
  end.

Definition StringSliceCmd_Reply (cmd : StringSliceCmd) : bytes :=
  match baseCmd_Err (StringSliceCmd_base cmd) with
  | Some err =>
      if String.eqb (Error err) "redis: nil" then bytes_of ("$-1" +:+ CRLF)
      else
        let d := "-" +:+ Error err +:+ CRLF in
        bytes_of d
  | None => FormatStringSlice (StringSliceCmd_val cmd)
  end.

Definition BoolSliceCmd_Reply (cmd : BoolSliceCmd) : bytes := [].
Definition StringStringMapCmd_Reply (cmd : StringStringMapCmd) : bytes := [].
Definition StringIntMapCmd_Reply (cmd : StringIntMapCmd) : bytes := [].
Definition ZSliceCmd_Reply (cmd : ZSliceCmd) : bytes := [].
Definition ScanCmd_Reply (cmd : ScanCmd) : bytes := [].
Definition ClusterSlotCmd_Reply (cmd : ClusterSlotCmd) : bytes := [].

(** *** parseReply

    Each method returns the receiver as the call leaves it, and either the
    returned error or [Panic]. A failing type assertion panics while the
    right-hand side is evaluated, before the assignment. *)

Definition Cmd_parseReply (rd : Reader) (cmd : Cmd) : Cmd * result (option error) :=
  let '(v, e) := parseReply rd (Some parseSlice) in
  (mkCmd (with_err e (Cmd_base cmd)) v, Ok e).

Definition SliceCmd_parseReply (rd : Reader) (cmd : SliceCmd)
  : SliceCmd * result (option error) :=
  let '(v, e) := parseReply rd (Some parseSlice) in
  match e with
  | Some _ => (mkSliceCmd (with_err e (SliceCmd_base cmd)) (SliceCmd_val cmd), Ok e)
  | None =>
      match assert_slice v with
      | Ok l => (mkSliceCmd (SliceCmd_base cmd) l, Ok None)
      | Panic => (cmd, Panic)
      end
  end.

Definition StatusCmd_parseReply (rd : Reader) (cmd : StatusCmd)
  : StatusCmd * result (option error) :=
  let '(v, e) := parseReply rd None in
  match e with
  | Some _ => (mkStatusCmd (with_err e (StatusCmd_base cmd)) (StatusCmd_val cmd), Ok e)
  | None =>
      match assert_string v with
      | Ok s => (mkStatusCmd (StatusCmd_base cmd) s, Ok None)
      | Panic => (cmd, Panic)
      end
  end.

Definition IntCmd_parseReply (rd : Reader) (cmd : IntCmd) : IntCmd * result (option error) :=
  let '(v, e) := parseReply rd None in
  match e with
  | Some _ => (mkIntCmd (with_err e (IntCmd_base cmd)) (IntCmd_val cmd), Ok e)
  | None =>
      match assert_int64 v with
      | Ok n => (mkIntCmd (IntCmd_base cmd) n, Ok None)
      | Panic => (cmd, Panic)
      end
  end.

Definition DurationCmd_parseReply (rd : Reader) (cmd : DurationCmd)
  : DurationCmd * result (option error) :=
  let '(v, e) := parseReply rd None in
  match e with
  | Some _ =>
      (mkDurationCmd (with_err e (DurationCmd_base cmd)) (DurationCmd_val cmd) (precision cmd),
       Ok e)
  | None =>
      match assert_int64 v with
      | Ok n =>
          (mkDurationCmd (DurationCmd_base cmd) (wrap64 (n * precision cmd)) (precision cmd),
           Ok None)
      | Panic => (cmd, Panic)
      end
  end.

Definition BoolCmd_parseReply (rd : Reader) (cmd : BoolCmd) : BoolCmd * result (option error) :=
  let '(v, e) := parseReply rd None in
  if bool_decide (e = Some Nil) then (mkBoolCmd (BoolCmd_base cmd) false, Ok None)
  else
    match e with
    | Some _ => (mkBoolCmd (with_err e (BoolCmd_base cmd)) (BoolCmd_val cmd), Ok e)
    | None =>
        match v with
        | IInt64 vv => (mkBoolCmd (BoolCmd_base cmd) (vv =? 1), Ok None)
        | IString vv => (mkBoolCmd (BoolCmd_base cmd) (String.eqb vv "OK"), Ok None)
        | _ => (cmd, Ok (Some (Errorf "got %!T(MISSING), wanted int64 or string")))
        end
    end.

Definition StringCmd_parseReply (rd : Reader) (cmd : StringCmd)
  : StringCmd * result (option error) :=
  let '(v, e) := parseReply rd None in
  match e with
  | Some _ => (mkStringCmd (with_err e (StringCmd_base cmd)) (StringCmd_val cmd), Ok e)
  | None =>
      match assert_string v with
      | Ok s => (mkStringCmd (StringCmd_base cmd) s, Ok None)
      | Panic => (cmd, Panic)
      end
  end.

Definition FloatCmd_parseReply (rd : Reader) (cmd : FloatCmd)
  : FloatCmd * result (option error) :=
  let '(v, e) := parseReply rd None in
  match e with
  | Some _ => (mkFloatCmd (with_err e (FloatCmd_base cmd)) (FloatCmd_val cmd), Ok e)
  | None =>
      match assert_string v with
      | Ok s =>
          let '(f, e2) := ParseFloat s in
          (mkFloatCmd (with_err e2 (FloatCmd_base cmd)) f, Ok e2)
      | Panic => (cmd, Panic)
      end
  end.

Definition StringSliceCmd_parseReply (rd : Reader) (cmd : StringSliceCmd)
  : StringSliceCmd * result (option error) :=
  let '(v, e) := parseReply rd (Some parseStringSlice) in
  match e with
  | Some _ =>
      (mkStringSliceCmd (with_err e (StringSliceCmd_base cmd)) (StringSliceCmd_val cmd), Ok e)
  | None =>
      match assert_stringSlice v with
      | Ok l => (mkStringSliceCmd (StringSliceCmd_base cmd) l, Ok None)
      | Panic => (cmd, Panic)
      end
  end.

Definition BoolSliceCmd_parseReply (rd : Reader) (cmd : BoolSliceCmd)
  : BoolSliceCmd * result (option error) :=
  let '(v, e) := parseReply rd (Some parseBoolSlice) in
  match e with
  | Some _ => (mkBoolSliceCmd (with_err e (BoolSliceCmd_base cmd)) (BoolSliceCmd_val cmd), Ok e)
  | None =>
      match assert_boolSlice v with
      | Ok l => (mkBoolSliceCmd (BoolSliceCmd_base cmd) l, Ok None)
      | Panic => (cmd, Panic)
      end
  end.

Definition StringStringMapCmd_parseReply (rd : Reader) (cmd : StringStringMapCmd)
  : StringStringMapCmd * result (option error) :=
  let '(v, e) := parseReply rd (Some parseStringStringMap) in
  match e with
  | Some _ =>
      (mkStringStringMapCmd (with_err e (StringStringMapCmd_base cmd))
         (StringStringMapCmd_val cmd), Ok e)
  | None =>
      match assert_stringStringMap v with
      | Ok m => (mkStringStringMapCmd (StringStringMapCmd_base cmd) m, Ok None)
      | Panic => (cmd, Panic)
      end
  end.

Definition StringIntMapCmd_parseReply (rd : Reader) (cmd : StringIntMapCmd)
  : StringIntMapCmd * result (option error) :=
  let '(v, e) := parseReply rd (Some parseStringIntMap) in
  match e with
  | Some _ =>
      (mkStringIntMapCmd (with_err e (StringIntMapCmd_base cmd)) (StringIntMapCmd_val cmd),
       Ok e)
  | None =>
      match assert_stringIntMap v with
      | Ok m => (mkStringIntMapCmd (StringIntMapCmd_base cmd) m, Ok None)
      | Panic => (cmd, Panic)
      end
  end.

Definition ZSliceCmd_parseReply (rd : Reader) (cmd : ZSliceCmd)
  : ZSliceCmd * result (option error) :=
  let '(v, e) := parseReply rd (Some parseZSlice) in
  match e with
  | Some _ => (mkZSliceCmd (with_err e (ZSliceCmd_base cmd)) (ZSliceCmd_val cmd), Ok e)
  | None =>
      match assert_zSlice v with
      | Ok l => (mkZSliceCmd (ZSliceCmd_base cmd) l, Ok None)
      | Panic => (cmd, Panic)
      end
  end.

(** The loop [for _, keyi := range keys] of [ScanCmd.parseReply]: the keys
    appended before a failing assertion stay appended. *)
Fixpoint ScanCmd_appendKeys (ks : list iface) (cmd : ScanCmd)
  : ScanCmd * result (option error) :=
  match ks with
  | [] => (cmd, Ok None)
  | keyi :: rest =>
      match assert_string keyi with
      | Ok s => ScanCmd_appendKeys rest (mkScanCmd (ScanCmd_base cmd) (cursor cmd) (keys cmd ++ [s]))
      | Panic => (cmd, Panic)
      end
  end.

Definition ScanCmd_parseReply (rd : Reader) (cmd : ScanCmd) : ScanCmd * result (option error) :=
  let '(vi, e) := parseReply rd (Some parseSlice) in
  match e with
  | Some _ => (mkScanCmd (with_err e (ScanCmd_base cmd)) (cursor cmd) (keys cmd), Ok e)
  | None =>
      match assert_slice vi with
      | Panic => (cmd, Panic)
      | Ok v =>
          match index v 0 with
          | Panic => (cmd, Panic)
          | Ok v0 =>
              match assert_string v0 with
              | Panic => (cmd, Panic)
              | Ok s =>
                  let '(c, e2) := ParseInt s in
                  let cmd := mkScanCmd (with_err e2 (ScanCmd_base cmd)) c (keys cmd) in
                  match e2 with
                  | Some _ => (cmd, Ok e2)
                  | None =>
                      match index v 1 with
                      | Panic => (cmd, Panic)
                      | Ok v1 =>
                          match assert_slice v1 with
                          | Panic => (cmd, Panic)
                          | Ok ks => ScanCmd_appendKeys ks cmd
                          end
                      end
                  end
              end
          end
      end
  end.

Definition ClusterSlotCmd_parseReply (rd : Reader) (cmd : ClusterSlotCmd)
  : ClusterSlotCmd * result (option error) :=
  let '(v, e) := parseReply rd (Some parseClusterSlotInfoSlice) in
  match e with
  | Some _ =>
      (mkClusterSlotCmd (with_err e (ClusterSlotCmd_base cmd)) (ClusterSlotCmd_val cmd), Ok e)
  | None =>
      match assert_clusterSlotInfoSlice v with
      | Ok l => (mkClusterSlotCmd (ClusterSlotCmd_base cmd) l, Ok None)
      | Panic => (cmd, Panic)
      end
  end.

(** *** The [Cmder] methods that go through the formatters and the decoder *)

Definition Reply (c : Cmder) : bytes :=
  match c with
  | CCmd c => Cmd_Reply c
  | CSliceCmd c => SliceCmd_Reply c
  | CStatusCmd c => StatusCmd_Reply c
  | CIntCmd c => IntCmd_Reply c
  | CDurationCmd c => DurationCmd_Reply c
  | CBoolCmd c => BoolCmd_Reply c
  | CStringCmd c => StringCmd_Reply c
  | CFloatCmd c => FloatCmd_Reply c
  | CStringSliceCmd c => StringSliceCmd_Reply c
  | CBoolSliceCmd c => BoolSliceCmd_Reply c
  | CStringStringMapCmd c => StringStringMapCmd_Reply c
  | CStringIntMapCmd c => StringIntMapCmd_Reply c
  | CZSliceCmd c => ZSliceCmd_Reply c
  | CScanCmd c => ScanCmd_Reply c
  | CClusterSlotCmd c => ClusterSlotCmd_Reply c
  end.

(** [lift K r] re-packs the receiver of a method outcome as a [Cmder]. *)
Definition lift {A : Type} (K : A -> Cmder) (r : A * result (option error))
  : Cmder * result (option error) := (K (fst r), snd r).

Definition Cmder_parseReply (rd : Reader) (c : Cmder) : Cmder * result (option error) :=
  match c with
  | CCmd c => lift CCmd (Cmd_parseReply rd c)
  | CSliceCmd c => lift CSliceCmd (SliceCmd_parseReply rd c)
  | CStatusCmd c => lift CStatusCmd (StatusCmd_parseReply rd c)
  | CIntCmd c => lift CIntCmd (IntCmd_parseReply rd c)
  | CDurationCmd c => lift CDurationCmd (DurationCmd_parseReply rd c)
  | CBoolCmd c => lift CBoolCmd (BoolCmd_parseReply rd c)
  | CStringCmd c => lift CStringCmd (StringCmd_parseReply rd c)
  | CFloatCmd c => lift CFloatCmd (FloatCmd_parseReply rd c)
  | CStringSliceCmd c => lift CStringSliceCmd (StringSliceCmd_parseReply rd c)
  | CBoolSliceCmd c => lift CBoolSliceCmd (BoolSliceCmd_parseReply rd c)
  | CStringStringMapCmd c => lift CStringStringMapCmd (StringStringMapCmd_parseReply rd c)
  | CStringIntMapCmd c => lift CStringIntMapCmd (StringIntMapCmd_parseReply rd c)
  | CZSliceCmd c => lift CZSliceCmd (ZSliceCmd_parseReply rd c)
  | CScanCmd c => lift CScanCmd (ScanCmd_parseReply rd c)
  | CClusterSlotCmd c => lift CClusterSlotCmd (ClusterSlotCmd_parseReply rd c)
  end.

(** *** String *)

Definition cmdString (cmd : Cmder) (val : iface) : string :=
  let s := Join (args cmd) " " in
  match Err cmd with
  | Some err => s +:+ ": " +:+ Error err
  | None =>
      match val with
      | INil => s
      | _ => s +:+ ": " +:+ Sprint val
      end
  end.

Definition Cmd_String (cmd : Cmd) : string := cmdString (CCmd cmd) (Cmd_val cmd).
Definition SliceCmd_String (cmd : SliceCmd) : string :=
  cmdString (CSliceCmd cmd) (ISlice (SliceCmd_val cmd)).
Definition StatusCmd_String (cmd : StatusCmd) : string :=
  cmdString (CStatusCmd cmd) (IString (StatusCmd_val cmd)).
Definition IntCmd_String (cmd : IntCmd) : string :=
  cmdString (CIntCmd cmd) (IInt64 (IntCmd_val cmd)).
Definition DurationCmd_String (cmd : DurationCmd) : string :=
  cmdString (CDurationCmd cmd) (IDuration (DurationCmd_val cmd)).
Definition BoolCmd_String (cmd : BoolCmd) : string :=
  cmdString (CBoolCmd cmd) (IBool (BoolCmd_val cmd)).
Definition StringCmd_String (cmd : StringCmd) : string :=
  cmdString (CStringCmd cmd) (IString (StringCmd_val cmd)).
Definition FloatCmd_String (cmd : FloatCmd) : string :=
  cmdString (CFloatCmd cmd) (IFloat64 (FloatCmd_val cmd)).
Definition StringSliceCmd_String (cmd : StringSliceCmd) : string :=
  cmdString (CStringSliceCmd cmd) (IStringSlice (StringSliceCmd_val cmd)).
Definition BoolSliceCmd_String (cmd : BoolSliceCmd) : string :=
  cmdString (CBoolSliceCmd cmd) (IBoolSlice (BoolSliceCmd_val cmd)).
Definition StringStringMapCmd_String (cmd : StringStringMapCmd) : string :=
  cmdString (CStringStringMapCmd cmd) (IStringStringMap (StringStringMapCmd_val cmd)).
Definition StringIntMapCmd_String (cmd : StringIntMapCmd) : string :=
  cmdString (CStringIntMapCmd cmd) (IStringIntMap (StringIntMapCmd_val cmd)).
Definition ZSliceCmd_String (cmd : ZSliceCmd) : string :=
  cmdString (CZSliceCmd cmd) (IZSlice (ZSliceCmd_val cmd)).
Definition ScanCmd_String (cmd : ScanCmd) : string :=
  cmdString (CScanCmd cmd) (IStringSlice (keys cmd)).
Definition ClusterSlotCmd_String (cmd : ClusterSlotCmd) : string :=
  cmdString (CClusterSlotCmd cmd) (IClusterSlotInfoSlice (ClusterSlotCmd_val cmd)).

Definition Cmder_String (c : Cmder) : string :=
  match c with
  | CCmd c => Cmd_String c
  | CSliceCmd c => SliceCmd_String c
  | CStatusCmd c => StatusCmd_String c
  | CIntCmd c => IntCmd_String c
  | CDurationCmd c => DurationCmd_String c
  | CBoolCmd c => BoolCmd_String c
  | CStringCmd c => StringCmd_String c
  | CFloatCmd c => FloatCmd_String c
  | CStringSliceCmd c => StringSliceCmd_String c
  | CBoolSliceCmd c => BoolSliceCmd_String c
  | CStringStringMapCmd c => StringStringMapCmd_String c
  | CStringIntMapCmd c => StringIntMapCmd_String c
  | CZSliceCmd c => ZSliceCmd_String c
  | CScanCmd c => ScanCmd_String c
  | CClusterSlotCmd c => ClusterSlotCmd_String c
  end.

(** *** The coercion accessors of [StringCmd] *)

Definition StringCmd_Int64 (cmd : StringCmd) : Z * option error :=
  match err (StringCmd_base cmd) with
  | Some e => (0, Some e)
  | None => ParseInt (StringCmd_val cmd)
  end.

Definition StringCmd_Uint64 (cmd : StringCmd) : Z * option error :=
  match err (StringCmd_base cmd) with
  | Some e => (0, Some e)
  | None => ParseUint (StringCmd_val cmd)
  end.

Definition StringCmd_Float64 (cmd : StringCmd) : float64 * option error :=
  match err (StringCmd_base cmd) with
  | Some e => (SpecFloat.S754_zero false, Some e)
  | None => ParseFloat (StringCmd_val cmd)
  end.

(** *** The frame of one element *)

(** The bytes [FormatSlice] writes for one element it supports. *)
Definition FormatSlice_frame (v : iface) : bytes :=
  match v with
  | INil => bytes_of ("$-1" +:+ CRLF)
  | IInt n => FormatString (formatInt n)
  | IInt64 n => FormatString (formatInt n)
  | IString s => FormatString s
  | IFloat64 f => FormatString (formatFloat f)
  | _ => []
  end.

(** * Properties *)

(** ** Bytes of a concatenation *)

Lemma bytes_of_app (s1 s2 : string) : bytes_of (s1 +:+ s2) = bytes_of s1 ++ bytes_of s2.
Proof.
  unfold bytes_of, list_byte_of_string.
  induction s1 as [|a s1 IH]; [reflexivity|].
  simpl. f_equal. exact IH.
Qed.

(** ** The formatters on the documented examples *)

(** C4. [FormatInt(42)] is exactly [:42\r\n], [FormatStatus("OK")] is exactly
    [+OK\r\n], [FormatString("ab")] is exactly [$2\r\nab\r\n]; and for
    every payload the length [FormatString] writes is the payload's byte
    count. *)
Theorem Format_examples :
  FormatInt 42 = bytes_of (":42" +:+ CRLF) /\
  FormatStatus "OK" = bytes_of ("+OK" +:+ CRLF) /\
  FormatString "ab" = bytes_of ("$2" +:+ CRLF +:+ "ab" +:+ CRLF) /\
  (forall val : string,
      FormatString val =
      bytes_of ("$" +:+ Itoa (Z.of_nat (String.length val)) +:+ CRLF +:+ val +:+ CRLF)).
Proof.
  repeat split; try reflexivity.
  intros val. unfold FormatString, WriteByte, WriteString, Bytes, Buffer_zero, len.
  rewrite !bytes_of_app. simpl. now rewrite <- !app_assoc.
Qed.

(** ** Reply *)

(** C3. For the Generic ([Cmd]), BoolSlice, StringStringMap, StringIntMap,
    ZSlice, Scan and ClusterSlot variants, [Reply] returns nil, no bytes at
    all, whatever value and whatever error the command holds. *)
Theorem Reply_nil_variants :
  (forall c : Cmd, Reply (CCmd c) = []) /\
  (forall c : BoolSliceCmd, Reply (CBoolSliceCmd c) = []) /\
  (forall c : StringStringMapCmd, Reply (CStringStringMapCmd c) = []) /\
  (forall c : StringIntMapCmd, Reply (CStringIntMapCmd c) = []) /\
  (forall c : ZSliceCmd, Reply (CZSliceCmd c) = []) /\
  (forall c : ScanCmd, Reply (CScanCmd c) = []) /\
  (forall c : ClusterSlotCmd, Reply (CClusterSlotCmd c) = []).
Proof. repeat split. Qed.

(** The error block every formatting [Reply] starts with. *)
Lemma error_block (e : error) :
  (Error e = "redis: nil"%string ->
   (if String.eqb (Error e) "redis: nil" then bytes_of ("$-1" +:+ CRLF)
    else bytes_of ("-" +:+ Error e +:+ CRLF)) = bytes_of ("$-1" +:+ CRLF)) /\
  (Error e <> "redis: nil"%string ->
   (if String.eqb (Error e) "redis: nil" then bytes_of ("$-1" +:+ CRLF)
    else bytes_of ("-" +:+ Error e +:+ CRLF)) = bytes_of ("-" +:+ Error e +:+ CRLF)).
Proof.
  split; intros H.
  - now rewrite H.
  - apply String.eqb_neq in H. now rewrite H.
Qed.

(** C2, as the code has it. For the eight variants whose [Reply] formats
    (Slice, Status, Int, Duration, Bool, String, Float, StringSlice) and a
    stored error [e]: [Reply] is exactly [$-1\r\n] when the message of [e] is
    [redis: nil], as that of the sentinel [Nil] is, and exactly [-], the
    message of [e] and [\r\n] when the message is any other. *)
Theorem Reply_of_stored_error (c : Cmder) (e : error) :
  formats c = true ->
  Err c = Some e ->
  (e = Nil -> Reply c = bytes_of ("$-1" +:+ CRLF)) /\
  (Error e = "redis: nil"%string -> Reply c = bytes_of ("$-1" +:+ CRLF)) /\
  (Error e <> "redis: nil"%string -> Reply c = bytes_of ("-" +:+ Error e +:+ CRLF)).
Proof.
  intros Hf He.
  assert (Hblock : Reply c =
            if String.eqb (Error e) "redis: nil" then bytes_of ("$-1" +:+ CRLF)
            else bytes_of ("-" +:+ Error e +:+ CRLF)).
  { destruct c as [c|c|c|c|c|c|c|c|c|c|c|c|c|c|c];
      try discriminate Hf; unfold Err in He; simpl in He |- *.
    - unfold SliceCmd_Reply. now rewrite He.
    - unfold StatusCmd_Reply. now rewrite He.
    - unfold IntCmd_Reply. now rewrite He.
    - unfold DurationCmd_Reply. now rewrite He.
    - unfold BoolCmd_Reply. now rewrite He.
    - unfold StringCmd_Reply. now rewrite He.
    - unfold FloatCmd_Reply. now rewrite He.
    - unfold StringSliceCmd_Reply. now rewrite He. }
  rewrite Hblock. destruct (error_block e) as [Hnil Hother].
  repeat split.
  - intros ->. now apply Hnil.
  - exact Hnil.
  - exact Hother.
Qed.

(** ** parseReply *)

(** C1, as the code has it. Every variant but [Cmd] and [BoolCmd] narrows the
    decoded value with an unchecked type assertion. When the decoder returns,
    with a nil error, a value whose dynamic type is not the asserted one, the
    call panics at the assertion and the command is left exactly as it was:
    no error is stored, and the call does not return at all, so it never
    returns having stored a zero value with a nil error. [Cmd] asserts
    nothing: it stores every decoded value as it is. *)
Theorem parseReply_unchecked_assertion (rd : Reader) (c : Cmder) (v : iface)
    (t : iface -> bool) :
  parseReply rd (parser_of c) = (v, None) ->
  asserted c = Some t ->
  t v = false ->
  Cmder_parseReply rd c = (c, Panic) /\
  (forall (g : Cmd) (rd' : Reader),
      Cmder_parseReply rd' (CCmd g) =
      (CCmd (mkCmd (with_err (snd (parseReply rd' (Some parseSlice))) (Cmd_base g))
                   (fst (parseReply rd' (Some parseSlice)))),
       Ok (snd (parseReply rd' (Some parseSlice))))).
Proof.
  intros Hdec Hasserted Hshape. split.
  - destruct c as [c|c|c|c|c|c|c|c|c|c|c|c|c|c|c];
      simpl in Hdec, Hasserted; inversion Hasserted; subst t; clear Hasserted;
      simpl; unfold lift;
      [ unfold SliceCmd_parseReply | unfold StatusCmd_parseReply
      | unfold IntCmd_parseReply | unfold DurationCmd_parseReply
      | unfold StringCmd_parseReply | unfold FloatCmd_parseReply
      | unfold StringSliceCmd_parseReply | unfold BoolSliceCmd_parseReply
      | unfold StringStringMapCmd_parseReply | unfold StringIntMapCmd_parseReply
      | unfold ZSliceCmd_parseReply | unfold ScanCmd_parseReply
      | unfold ClusterSlotCmd_parseReply ];
      rewrite Hdec; destruct v; simpl in Hshape |- *;
      try discriminate Hshape; reflexivity.
  - intros g rd'. simpl. unfold lift, Cmd_parseReply.
    now destruct (parseReply rd' (Some parseSlice)).
Qed.

(** C5, as the code has it. When the decoder yields the sentinel [Nil],
    [BoolCmd.parseReply] returns nil and stores [false]; it does not assign
    the error field, so [Nil] is neither stored nor returned, and [Err()] is
    nil after the call on a command that held no error before it. A decoded
    integer 1 stores [true], and so does a decoded string [OK]. *)
Theorem BoolCmd_parseReply_Nil (rdNil rdOne rdOK : Reader) (v : iface) (cmd : BoolCmd) :
  parseReply rdNil None = (v, Some Nil) ->
  parseReply rdOne None = (IInt64 1, None) ->
  parseReply rdOK None = (IString "OK", None) ->
  (BoolCmd_parseReply rdNil cmd = (mkBoolCmd (BoolCmd_base cmd) false, Ok None) /\
   (Err (CBoolCmd cmd) = None ->
    Err (CBoolCmd (fst (BoolCmd_parseReply rdNil cmd))) = None)) /\
  BoolCmd_parseReply rdOne cmd = (mkBoolCmd (BoolCmd_base cmd) true, Ok None) /\
  BoolCmd_parseReply rdOK cmd = (mkBoolCmd (BoolCmd_base cmd) true, Ok None).
Proof.
  intros HNil HOne HOK.
  assert (Hstep : BoolCmd_parseReply rdNil cmd
                  = (mkBoolCmd (BoolCmd_base cmd) false, Ok None)).
  { unfold BoolCmd_parseReply. rewrite HNil.
    now rewrite bool_decide_eq_true_2. }
  split; [split|split].
  - exact Hstep.
  - intros Hheld. rewrite Hstep. exact Hheld.
  - unfold BoolCmd_parseReply. rewrite HOne.
    rewrite bool_decide_eq_false_2 by discriminate. reflexivity.
  - unfold BoolCmd_parseReply. rewrite HOK.
    rewrite bool_decide_eq_false_2 by discriminate. reflexivity.
Qed.

(** ** reset and setErr *)

(** C6. For every variant and every state, [reset] leaves the command with
    the zero value of its result type and a nil error, and [args] returns the
    same argument vector as before. *)
Theorem reset_clears (c : Cmder) :
  Forall (fun v => isZero v = true) (Val (reset c)) /\
  Err (reset c) = None /\
  args (reset c) = args c.
Proof.
  destruct c as [c|c|c|c|c|c|c|c|c|c|c|c|c|c|c]; simpl;
    (split; [repeat constructor; try (apply bool_decide_eq_true_2; reflexivity) | split; reflexivity]).
Qed.

Lemma setErr_Err (e : option error) (c : Cmder) : Err (setErr e c) = e.
Proof. destruct c; unfold Err, setErr; simpl; now destruct e. Qed.

Lemma setErr_Val (e : option error) (c : Cmder) : Val (setErr e c) = Val c.
Proof. now destruct c. Qed.

Lemma setErr_args (e : option error) (c : Cmder) : args (setErr e c) = args c.
Proof. now destruct c. Qed.

Lemma setErr_idemp (e : option error) (c : Cmder) : setErr e (setErr e c) = setErr e c.
Proof. now destruct c. Qed.

(** What [setCmdsErr] leaves at an address: one [setErr] when the address is
    in the batch, however often, and the command as it was otherwise. *)
Lemma setCmdsErr_lookup (cmds : list positive) (e : option error) (h : store) (l : positive) :
  setCmdsErr cmds e h !! l =
  if decide (l ∈ cmds) then setErr e <$> h !! l else h !! l.
Proof.
  revert h. induction cmds as [|a rest IH]; intros h; simpl.
  - destruct (decide (l ∈ [])) as [Hin|_]; [|reflexivity].
    now apply elem_of_nil in Hin.
  - rewrite IH. destruct (decide (l = a)) as [->|Hne].
    + rewrite lookup_alter_eq.
      destruct (decide (a ∈ a :: rest)) as [_|Hn]; [|exfalso; apply Hn; left].
      destruct (decide (a ∈ rest)); [|reflexivity].
      destruct (h !! a); simpl; [|reflexivity]. now rewrite setErr_idemp.
    + rewrite lookup_alter_ne by congruence.
      destruct (decide (l ∈ rest)) as [Hin|Hnin];
        destruct (decide (l ∈ a :: rest)) as [Hin'|Hnin']; try reflexivity.
      * exfalso. apply Hnin'. now right.
      * exfalso. apply elem_of_cons in Hin' as [?|?]; [congruence|contradiction].
Qed.

(** C7. For every error [e] (nil included) and every batch, each command of
    the batch has [Err() == e] after [setCmdsErr], and holds the value and the
    arguments it held before; a command outside the batch is not touched. *)
Theorem setCmdsErr_sets_all (h : store) (cmds : list positive) (e : option error) :
  (forall l, l ∈ cmds -> is_Some (h !! l)) ->
  (forall l, l ∈ cmds ->
     exists c0 c, h !! l = Some c0 /\ setCmdsErr cmds e h !! l = Some c /\
                  Err c = e /\ Val c = Val c0 /\ args c = args c0) /\
  (forall l, l ∉ cmds -> setCmdsErr cmds e h !! l = h !! l).
Proof.
  intros Halloc. split.
  - intros l Hin. destruct (Halloc l Hin) as [c0 Hc0].
    exists c0, (setErr e c0). rewrite setCmdsErr_lookup, Hc0.
    destruct (decide (l ∈ cmds)); [|contradiction].
    repeat split; [apply setErr_Err | apply setErr_Val | apply setErr_args].
  - intros l Hnin. rewrite setCmdsErr_lookup.
    now destruct (decide (l ∈ cmds)).
Qed.

(** ** clusterKey *)

Lemma index_lookup {A : Type} (l : list A) (i : Z) (x : A) :
  0 <= i -> l !! Z.to_nat i = Some x -> index l i = Ok x.
Proof.
  intros Hi Hx. unfold index.
  pose proof (lookup_lt_Some _ _ _ Hx) as Hlt.
  assert (H1 : (0 <=? i) = true) by lia.
  assert (H2 : (i <? Z.of_nat (length l)) = true) by lia.
  now rewrite H1, H2, Hx.
Qed.

(** C8. [clusterKey] returns the argument at the configured key position when
    a position is configured (greater than 0) and the argument vector has an
    argument there, and the empty string when the position is 0. *)
Theorem clusterKey_configured (c : Cmder) (s : string) :
  (0 < _clusterKeyPos (base c) ->
   args c !! Z.to_nat (_clusterKeyPos (base c)) = Some s ->
   clusterKey c = Ok s) /\
  (_clusterKeyPos (base c) = 0 -> clusterKey c = Ok ""%string).
Proof.
  unfold clusterKey, baseCmd_clusterKey, args, baseCmd_args. split.
  - intros Hpos Hs.
    pose proof (lookup_lt_Some _ _ _ Hs) as Hlt.
    assert (H1 : (0 <? _clusterKeyPos (base c)) = true) by lia.
    assert (H2 : (_clusterKeyPos (base c) <? Z.of_nat (length (_args (base c)))) = true) by lia.
    rewrite H1, H2. simpl. apply index_lookup; [lia | exact Hs].
  - intros ->. reflexivity.
Qed.

(** C9. [clusterKey] never panics: it always returns a string; and when the
    key position is at or beyond the length of the argument vector, or is 0
    or negative, that string is empty. *)
Theorem clusterKey_total (c : Cmder) :
  (exists s : string, clusterKey c = Ok s) /\
  (Z.of_nat (length (args c)) <= _clusterKeyPos (base c) \/ _clusterKeyPos (base c) <= 0 ->
   clusterKey c = Ok ""%string).
Proof.
  unfold clusterKey, baseCmd_clusterKey, args, baseCmd_args. split.
  - destruct (0 <? _clusterKeyPos (base c)) eqn:H1;
      destruct (_clusterKeyPos (base c) <? Z.of_nat (length (_args (base c)))) eqn:H2;
      simpl; eauto.
    destruct (lookup_lt_is_Some_2 (_args (base c)) (Z.to_nat (_clusterKeyPos (base c))))
      as [x Hx]; [lia|].
    exists x. apply index_lookup; [lia | exact Hx].
  - intros [Hge|Hle].
    + assert (H2 : (_clusterKeyPos (base c) <? Z.of_nat (length (_args (base c)))) = false) by lia.
      rewrite H2. now rewrite andb_false_r.
    + assert (H1 : (0 <? _clusterKeyPos (base c)) = false) by lia.
      now rewrite H1.
Qed.

(** ** FormatSlice *)

Lemma FormatSlice_loop_unsupported (val : list iface) (b : Buffer) :
  Exists (fun v => unsupported v = true) val ->
  FormatSlice_loop val b = bytes_of ("-" +:+ Error TypeAssertedErr +:+ CRLF).
Proof.
  intros Hex. revert b. induction Hex as [v rest Hv | v rest Hex IH]; intros b.
  - destruct v; simpl in Hv; try discriminate Hv; reflexivity.
  - destruct v; simpl; try apply IH; reflexivity.
Qed.

(** C10. On the sequence ["a", 1, 1.5, nil] (a string, an int, a float64 and
    the nil interface), given that the package renders the float 1.5 as [1.5],
    [FormatSlice] emits the array header of count 4 and then, in this order,
    the bulk strings [a], [1] and [1.5] and the nil bulk frame [$-1\r\n]. On a
    sequence with an element of any unsupported type it returns, instead of an
    array, the error frame that carries the message of [TypeAssertedErr]. *)
Theorem FormatSlice_mixed :
  formatFloat float_1_5 = "1.5"%string ->
  FormatSlice [IString "a"; IInt 1; IFloat64 float_1_5; INil] =
    bytes_of ("*4" +:+ CRLF +:+
              "$1" +:+ CRLF +:+ "a" +:+ CRLF +:+
              "$1" +:+ CRLF +:+ "1" +:+ CRLF +:+
              "$3" +:+ CRLF +:+ "1.5" +:+ CRLF +:+
              "$-1" +:+ CRLF) /\
  (forall val : list iface,
      Exists (fun v => unsupported v = true) val ->
      FormatSlice val = bytes_of ("-" +:+ Error TypeAssertedErr +:+ CRLF)).
Proof.
  intros Hf. split.
  - unfold FormatSlice. simpl. rewrite Hf. reflexivity.
  - intros val Hex. unfold FormatSlice. now apply FormatSlice_loop_unsupported.
Qed.

(** * Further properties *)

(** ** The array formatters *)

(** Writing one bulk string to a buffer appends what [FormatString] returns. *)
Lemma bulk_is_FormatString (d : string) (b : Buffer) :
  WriteString CRLF (WriteString d (WriteString CRLF (WriteString (Itoa (len d)) (WriteByte "$" b))))
  = b ++ FormatString d.
Proof.
  unfold FormatString, WriteString, WriteByte, Bytes, Buffer_zero. simpl.
  now rewrite <- !app_assoc.
Qed.

Lemma FormatStringSlice_loop_app (val : list string) (b : Buffer) :
  FormatStringSlice_loop val b = b ++ List.concat (map FormatString val).
Proof.
  revert b. induction val as [|v rest IH]; intros b; simpl.
  - now rewrite app_nil_r.
  - rewrite IH, bulk_is_FormatString. now rewrite <- app_assoc.
Qed.

Lemma FormatSlice_loop_app (val : list iface) (b : Buffer) :
  Forall (fun v => unsupported v = false) val ->
  FormatSlice_loop val b = b ++ List.concat (map FormatSlice_frame val).
Proof.
  intros Hall. revert b. induction Hall as [|v rest Hv _ IH]; intros b; simpl.
  - now rewrite app_nil_r.
  - destruct v; simpl in Hv; try discriminate Hv; simpl;
      rewrite IH; unfold FormatSlice_bulk; rewrite ?bulk_is_FormatString;
      unfold WriteString; now rewrite <- app_assoc.
Qed.

Lemma header_bytes (n : Z) :
  WriteString CRLF (WriteString (Itoa n) (WriteByte "*" Buffer_zero))
  = bytes_of ("*" +:+ Itoa n +:+ CRLF).
Proof.
  unfold WriteString, WriteByte, Buffer_zero.
  change ("*" +:+ Itoa n +:+ CRLF)%string with ("*" +:+ (Itoa n +:+ CRLF))%string.
  rewrite !bytes_of_app. simpl. reflexivity.
Qed.

(** X1. [FormatStringSlice] writes the array header with the number of
    elements, then one bulk string per element, in order: each element's
    frame is what [FormatString] returns for it. *)
Theorem FormatStringSlice_frames (val : list string) :
  FormatStringSlice val =
  bytes_of ("*" +:+ Itoa (Z.of_nat (length val)) +:+ CRLF)
  ++ List.concat (map FormatString val).
Proof.
  unfold FormatStringSlice, Bytes. rewrite FormatStringSlice_loop_app.
  now rewrite header_bytes.
Qed.

(** X2. On a sequence all of whose elements are nil, int, int64, string or
    float64, [FormatSlice] writes the array header with the number of elements
    and then one frame per element, in order: the nil bulk frame for nil and
    a bulk string for the others. *)
Theorem FormatSlice_frames (val : list iface) :
  Forall (fun v => unsupported v = false) val ->
  FormatSlice val =
  bytes_of ("*" +:+ Itoa (Z.of_nat (length val)) +:+ CRLF)
  ++ List.concat (map FormatSlice_frame val).
Proof.
  intros Hall. unfold FormatSlice. rewrite (FormatSlice_loop_app _ _ Hall).
  now rewrite header_bytes.
Qed.

Lemma FormatSlice_loop_strings (l : list string) (b : Buffer) :
  FormatSlice_loop (map IString l) b = FormatStringSlice_loop l b.
Proof.
  revert b. induction l as [|s rest IH]; intros b; simpl; [reflexivity|].
  now rewrite IH.
Qed.

(** X3. The two array formatters agree on strings: [FormatSlice] on a
    sequence of strings returns the bytes [FormatStringSlice] returns on the
    same strings. *)
Theorem FormatSlice_of_strings (l : list string) :
  FormatSlice (map IString l) = FormatStringSlice l.
Proof.
  unfold FormatSlice, FormatStringSlice, Bytes.
  rewrite FormatSlice_loop_strings. now rewrite length_map.
Qed.

(** ** Frames end with CRLF *)

Lemma ends_WriteString_CRLF (b : Buffer) : ends_with_CRLF (WriteString CRLF b).
Proof. now exists b. Qed.

Lemma ends_bytes_of (s : string) : ends_with_CRLF (bytes_of (s +:+ CRLF)).
Proof. exists (bytes_of s). apply bytes_of_app. Qed.

Lemma ends_error_frame (msg : string) : ends_with_CRLF (bytes_of ("-" +:+ msg +:+ CRLF)).
Proof.
  exists (bytes_of "-" ++ bytes_of msg).
  change ("-" +:+ msg +:+ CRLF)%string with ("-" +:+ (msg +:+ CRLF))%string.
  rewrite !bytes_of_app. now rewrite app_assoc.
Qed.

Lemma ends_error_block (e : error) :
  ends_with_CRLF
    (if String.eqb (Error e) "redis: nil" then bytes_of ("$-1" +:+ CRLF)
     else bytes_of ("-" +:+ Error e +:+ CRLF)).
Proof.
  destruct (String.eqb (Error e) "redis: nil"); [apply ends_bytes_of | apply ends_error_frame].
Qed.

Lemma ends_FormatSlice_loop (val : list iface) (b : Buffer) :
  ends_with_CRLF b -> ends_with_CRLF (FormatSlice_loop val b).
Proof.
  revert b. induction val as [|v rest IH]; intros b Hb; simpl; [exact Hb|].
  destruct v; try apply ends_error_frame; apply IH;
    try apply ends_WriteString_CRLF.
  unfold WriteString. exists (b ++ bytes_of "$-1").
  rewrite bytes_of_app. now rewrite app_assoc.
Qed.

Lemma ends_FormatStringSlice_loop (val : list string) (b : Buffer) :
  ends_with_CRLF b -> ends_with_CRLF (FormatStringSlice_loop val b).
Proof.
  revert b. induction val as [|v rest IH]; intros b Hb; simpl; [exact Hb|].
  apply IH, ends_WriteString_CRLF.
Qed.

(** X4. Whatever a formatting variant holds (a value of any kind, [Nil] or
    any other error), the bytes its [Reply] returns end with CRLF; in
    particular they are never empty. *)
Theorem Reply_ends_with_CRLF (c : Cmder) :
  formats c = true -> ends_with_CRLF (Reply c).
Proof.
  intros Hf.
  destruct c as [c|c|c|c|c|c|c|c|c|c|c|c|c|c|c]; try discriminate Hf; simpl;
    [ unfold SliceCmd_Reply | unfold StatusCmd_Reply | unfold IntCmd_Reply
    | unfold DurationCmd_Reply | unfold BoolCmd_Reply | unfold StringCmd_Reply
    | unfold FloatCmd_Reply | unfold StringSliceCmd_Reply ];
    match goal with |- context [baseCmd_Err ?b] => destruct (baseCmd_Err b) as [e|] end;
    try apply ends_error_block.
  - apply ends_FormatSlice_loop, ends_WriteString_CRLF.
  - apply ends_WriteString_CRLF.
  - apply ends_WriteString_CRLF.
  - apply ends_WriteString_CRLF.
  - apply ends_WriteString_CRLF.
  - apply ends_WriteString_CRLF.
  - apply ends_WriteString_CRLF.
  - apply ends_FormatStringSlice_loop, ends_WriteString_CRLF.
Qed.

(** ** What parseReply stores *)

(** X5. When the decoder returns an error, every variant stores that error
    and returns it, and keeps its arguments; the value is kept too, except by
    [Cmd], which stores the value the decoder returned beside the error. The
    one exception is [BoolCmd] on [Nil]. *)
Theorem parseReply_stores_decoder_error (rd : Reader) (c : Cmder) (v : iface) (e : error) :
  parseReply rd (parser_of c) = (v, Some e) ->
  (forall b : BoolCmd, c = CBoolCmd b -> e <> Nil) ->
  exists c' : Cmder,
    Cmder_parseReply rd c = (c', Ok (Some e)) /\
    Err c' = Some e /\
    args c' = args c /\
    Val c' = match c with CCmd _ => [v] | _ => Val c end.
Proof.
  intros Hdec Hbool.
  destruct c as [c|c|c|c|c|c|c|c|c|c|c|c|c|c|c]; simpl in Hdec; simpl; unfold lift;
    [ unfold Cmd_parseReply | unfold SliceCmd_parseReply | unfold StatusCmd_parseReply
    | unfold IntCmd_parseReply | unfold DurationCmd_parseReply | unfold BoolCmd_parseReply
    | unfold StringCmd_parseReply | unfold FloatCmd_parseReply
    | unfold StringSliceCmd_parseReply | unfold BoolSliceCmd_parseReply
    | unfold StringStringMapCmd_parseReply | unfold StringIntMapCmd_parseReply
    | unfold ZSliceCmd_parseReply | unfold ScanCmd_parseReply
    | unfold ClusterSlotCmd_parseReply ];
    rewrite Hdec;
    try (rewrite bool_decide_eq_false_2
           by (intros [= ->]; now apply (Hbool c)));
    simpl; eexists; (split; [reflexivity|]); repeat split.
Qed.

(** X6. When the decoder returns, with a nil error, a value of the asserted
    type, the variants that store it as it is return nil and hold exactly that
    value; they do not assign the error field, so an error the command held
    before the call is still there after it. *)
Theorem parseReply_stores_asserted (rd : Reader) (c : Cmder) (v : iface) (t : iface -> bool) :
  parseReply rd (parser_of c) = (v, None) ->
  stores_asserted c = true ->
  asserted c = Some t ->
  t v = true ->
  exists c' : Cmder,
    Cmder_parseReply rd c = (c', Ok None) /\
    Val c' = [v] /\
    Err c' = Err c /\
    args c' = args c.
Proof.
  intros Hdec Hs Hasserted Hshape.
  destruct c as [c|c|c|c|c|c|c|c|c|c|c|c|c|c|c]; try discriminate Hs;
    simpl in Hdec, Hasserted; inversion Hasserted; subst t; clear Hasserted;
    simpl; unfold lift;
    [ unfold SliceCmd_parseReply | unfold StatusCmd_parseReply
    | unfold IntCmd_parseReply | unfold StringCmd_parseReply
    | unfold StringSliceCmd_parseReply | unfold BoolSliceCmd_parseReply
    | unfold StringStringMapCmd_parseReply | unfold StringIntMapCmd_parseReply
    | unfold ZSliceCmd_parseReply | unfold ClusterSlotCmd_parseReply ];
    rewrite Hdec; destruct v; try discriminate Hshape;
    simpl; eexists; (split; [reflexivity|]); repeat split.
Qed.

(** X7. Decoding and re-encoding. After a decode of a value of the asserted
    type, a Slice, Status, Int, String or StringSlice command that held no
    error replies with that value in its own frame; one that held an error
    replies as before the call, with the frame of that error. *)
Theorem Reply_after_parseReply (rd : Reader) (c : Cmder) (v : iface) (t : iface -> bool) :
  parseReply rd (parser_of c) = (v, None) ->
  stores_asserted c = true ->
  formats c = true ->
  asserted c = Some t ->
  t v = true ->
  (Err c = None ->
   Reply (fst (Cmder_parseReply rd c)) =
   match c, v with
   | CSliceCmd _, ISlice l => FormatSlice l
   | CStatusCmd _, IString s => FormatStatus s
   | CIntCmd _, IInt64 n => FormatInt n
   | CStringCmd _, IString s => FormatString s
   | CStringSliceCmd _, IStringSlice l => FormatStringSlice l
   | _, _ => []
   end) /\
  (forall e : error, Err c = Some e -> Reply (fst (Cmder_parseReply rd c)) = Reply c).
Proof.
  intros Hdec Hs Hf Hasserted Hshape.
  destruct c as [c|c|c|c|c|c|c|c|c|c|c|c|c|c|c];
    try discriminate Hs; try discriminate Hf;
    simpl in Hdec, Hasserted; inversion Hasserted; subst t; clear Hasserted;
    unfold Err; simpl; unfold lift;
    [ unfold SliceCmd_parseReply | unfold StatusCmd_parseReply
    | unfold IntCmd_parseReply | unfold StringCmd_parseReply
    | unfold StringSliceCmd_parseReply ];
    rewrite Hdec; destruct v; try discriminate Hshape; simpl;
    [ unfold SliceCmd_Reply | unfold StatusCmd_Reply | unfold IntCmd_Reply
    | unfold StringCmd_Reply | unfold StringSliceCmd_Reply ];
    simpl; (split; [intros ->; reflexivity | intros e ->; reflexivity]).
Qed.

(** X8. When the decoder yields [Nil], a Bool command that held no error
    replies with the integer frame [:0\r\n], while an Int command stores
    [Nil] and replies with the nil bulk frame [$-1\r\n]. *)
Theorem Reply_after_Nil (rd : Reader) (v : iface) (b : BoolCmd) (i : IntCmd) :
  parseReply rd None = (v, Some Nil) ->
  Err (CBoolCmd b) = None ->
  BoolCmd_Reply (fst (BoolCmd_parseReply rd b)) = bytes_of (":0" +:+ CRLF) /\
  IntCmd_Reply (fst (IntCmd_parseReply rd i)) = bytes_of ("$-1" +:+ CRLF).
Proof.
  intros Hdec Hb. unfold Err in Hb. simpl in Hb. split.
  - unfold BoolCmd_parseReply. rewrite Hdec.
    rewrite bool_decide_eq_true_2 by reflexivity. simpl.
    unfold BoolCmd_Reply. simpl. now rewrite Hb.
  - unfold IntCmd_parseReply. rewrite Hdec. reflexivity.
Qed.

(** ** DurationCmd *)

Lemma wrap64_range (z : Z) : - 2 ^ 63 <= wrap64 z < 2 ^ 63.
Proof.
  unfold wrap64.
  pose proof (Z.mod_pos_bound (z + 2 ^ 63) (2 ^ 64) ltac:(lia)). lia.
Qed.

Lemma wrap64_small (z : Z) : - 2 ^ 63 <= z < 2 ^ 63 -> wrap64 z = z.
Proof.
  intros Hz. unfold wrap64. rewrite Z.mod_small by lia. lia.
Qed.

Lemma wrap64_congr (z : Z) : (wrap64 z - z) mod 2 ^ 64 = 0.
Proof.
  unfold wrap64.
  pose proof (Z.div_mod (z + 2 ^ 63) (2 ^ 64) ltac:(lia)) as Hdm.
  replace ((z + 2 ^ 63) mod 2 ^ 64 - 2 ^ 63 - z)
    with ((- ((z + 2 ^ 63) / 2 ^ 64)) * 2 ^ 64) by lia.
  apply Z.mod_mul. lia.
Qed.

(** X9. On a decoded integer [n], [DurationCmd.parseReply] returns nil and
    stores a duration that is a signed 64-bit value congruent to [n] times the
    precision modulo 2^64; it is exactly that product whenever the product
    fits in 64 bits. *)
Theorem DurationCmd_parseReply_scaled (rd : Reader) (cmd : DurationCmd) (n : Z) :
  parseReply rd None = (IInt64 n, None) ->
  snd (DurationCmd_parseReply rd cmd) = Ok None /\
  - 2 ^ 63 <= DurationCmd_val (fst (DurationCmd_parseReply rd cmd)) < 2 ^ 63 /\
  (DurationCmd_val (fst (DurationCmd_parseReply rd cmd)) - n * precision cmd) mod 2 ^ 64 = 0 /\
  (- 2 ^ 63 <= n * precision cmd < 2 ^ 63 ->
   DurationCmd_val (fst (DurationCmd_parseReply rd cmd)) = n * precision cmd).
Proof.
  intros Hdec. unfold DurationCmd_parseReply. rewrite Hdec. simpl.
  split; [reflexivity|]. split; [apply wrap64_range|].
  split; [apply wrap64_congr | apply wrap64_small].
Qed.

(** ** ScanCmd *)

Lemma appendKeys_strings (ks : list string) (cmd : ScanCmd) :
  ScanCmd_appendKeys (map IString ks) cmd =
  (mkScanCmd (ScanCmd_base cmd) (cursor cmd) (keys cmd ++ ks), Ok None).
Proof.
  revert cmd. induction ks as [|k rest IH]; intros cmd; simpl.
  - rewrite app_nil_r. now destruct cmd.
  - rewrite IH. simpl. now rewrite <- app_assoc.
Qed.

Lemma appendKeys_stops (ks : list string) (bad : iface) (rest : list iface) (cmd : ScanCmd) :
  assert_string bad = Panic ->
  ScanCmd_appendKeys (map IString ks ++ bad :: rest) cmd =
  (mkScanCmd (ScanCmd_base cmd) (cursor cmd) (keys cmd ++ ks), Panic).
Proof.
  intros Hbad. revert cmd. induction ks as [|k more IH]; intros cmd; simpl.
  - rewrite Hbad, app_nil_r. now destruct cmd.
  - rewrite IH. simpl. now rewrite <- app_assoc.
Qed.

Lemma appendKeys_base (ks : list iface) (cmd : ScanCmd) :
  ScanCmd_base (fst (ScanCmd_appendKeys ks cmd)) = ScanCmd_base cmd.
Proof.
  revert cmd. induction ks as [|k rest IH]; intros cmd; simpl; [reflexivity|].
  destruct (assert_string k); [|reflexivity]. now rewrite IH.
Qed.

(** X10. On a reply whose first element is a string that [ParseInt] accepts
    and whose second element is an array of strings, [ScanCmd.parseReply]
    returns nil, stores the parsed cursor and a nil error, and appends the
    strings, in order, to the keys the command already holds; elements after
    the second are ignored. *)
Theorem ScanCmd_parseReply_appends (rd : Reader) (cmd : ScanCmd) (s : string)
    (ks : list string) (more : list iface) (cur : Z) :
  parseReply rd (Some parseSlice) = (ISlice (IString s :: ISlice (map IString ks) :: more), None) ->
  ParseInt s = (cur, None) ->
  ScanCmd_parseReply rd cmd =
  (mkScanCmd (with_err None (ScanCmd_base cmd)) cur (keys cmd ++ ks), Ok None).
Proof.
  intros Hdec Hcur. unfold ScanCmd_parseReply. rewrite Hdec. simpl assert_slice. cbv iota.
  rewrite (index_lookup _ 0 (IString s)) by (try lia; reflexivity).
  simpl assert_string. cbv iota. rewrite Hcur.
  rewrite (index_lookup _ 1 (ISlice (map IString ks))) by (try lia; reflexivity).
  simpl assert_slice. cbv iota. now rewrite appendKeys_strings.
Qed.

(** X11. The malformed replies of a scan. An empty array makes
    [ScanCmd.parseReply] panic with the command untouched. A cursor that
    [ParseInt] rejects is an error that is stored and returned, with the keys
    untouched. An array with a valid cursor and nothing after it panics after
    the cursor has been stored and the error field cleared. *)
Theorem ScanCmd_parseReply_malformed (rdEmpty rdBad rdShort : Reader) (cmd : ScanCmd)
    (s1 s2 : string) (more : list iface) (cur1 cur2 : Z) (e : error) :
  parseReply rdEmpty (Some parseSlice) = (ISlice [], None) ->
  parseReply rdBad (Some parseSlice) = (ISlice (IString s1 :: more), None) ->
  ParseInt s1 = (cur1, Some e) ->
  parseReply rdShort (Some parseSlice) = (ISlice [IString s2], None) ->
  ParseInt s2 = (cur2, None) ->
  ScanCmd_parseReply rdEmpty cmd = (cmd, Panic) /\
  ScanCmd_parseReply rdBad cmd =
    (mkScanCmd (with_err (Some e) (ScanCmd_base cmd)) cur1 (keys cmd), Ok (Some e)) /\
  ScanCmd_parseReply rdShort cmd =
    (mkScanCmd (with_err None (ScanCmd_base cmd)) cur2 (keys cmd), Panic).
Proof.
  intros HE HB HP1 HS HP2. repeat split.
  - unfold ScanCmd_parseReply. now rewrite HE.
  - unfold ScanCmd_parseReply. rewrite HB. simpl assert_slice. cbv iota.
    rewrite (index_lookup _ 0 (IString s1)) by (try lia; reflexivity).
    simpl assert_string. cbv iota. now rewrite HP1.
  - unfold ScanCmd_parseReply. rewrite HS. simpl assert_slice. cbv iota.
    rewrite (index_lookup _ 0 (IString s2)) by (try lia; reflexivity).
    simpl assert_string. cbv iota. now rewrite HP2.
Qed.

(** X12. When the array of keys holds an element that is not a string,
    [ScanCmd.parseReply] panics at that element, and the keys before it stay
    appended to the command, beside the cursor already stored. *)
Theorem ScanCmd_parseReply_partial (rd : Reader) (cmd : ScanCmd) (s : string)
    (ks : list string) (bad : iface) (rest : list iface) (cur : Z) :
  parseReply rd (Some parseSlice) =
    (ISlice [IString s; ISlice (map IString ks ++ bad :: rest)], None) ->
  ParseInt s = (cur, None) ->
  assert_string bad = Panic ->
  ScanCmd_parseReply rd cmd =
  (mkScanCmd (with_err None (ScanCmd_base cmd)) cur (keys cmd ++ ks), Panic).
Proof.
  intros Hdec Hcur Hbad. unfold ScanCmd_parseReply. rewrite Hdec. simpl assert_slice. cbv iota.
  rewrite (index_lookup _ 0 (IString s)) by (try lia; reflexivity).
  simpl assert_string. cbv iota. rewrite Hcur.
  rewrite (index_lookup _ 1 (ISlice (map IString ks ++ bad :: rest))) by (try lia; reflexivity).
  simpl assert_slice. cbv iota. now rewrite (appendKeys_stops _ _ _ _ Hbad).
Qed.

(** ** What parseReply, reset and setErr leave alone *)

Lemma reset_base (c : Cmder) : base (reset c) = with_err None (base c).
Proof. now destruct c. Qed.

Lemma same_reset_same_frame (c1 c2 : Cmder) :
  reset c1 = reset c2 ->
  args c1 = args c2 /\ clusterKey c1 = clusterKey c2 /\
  readTimeout c1 = readTimeout c2 /\ writeTimeout c1 = writeTimeout c2.
Proof.
  intros H. assert (Hb : with_err None (base c1) = with_err None (base c2))
    by (rewrite <- !reset_base; now rewrite H).
  unfold args, clusterKey, readTimeout, writeTimeout, baseCmd_args, baseCmd_clusterKey,
    baseCmd_readTimeout, baseCmd_writeTimeout.
  destruct (base c1), (base c2). unfold with_err in Hb. simpl in *.
  inversion Hb; subst. repeat split.
Qed.

Lemma ScanCmd_parseReply_reset (rd : Reader) (c : ScanCmd) :
  ScanCmd_reset (fst (ScanCmd_parseReply rd c)) = ScanCmd_reset c.
Proof.
  unfold ScanCmd_parseReply.
  destruct (parseReply rd (Some parseSlice)) as [vi [e|]]; [reflexivity|].
  destruct (assert_slice vi) as [v|]; [|reflexivity].
  destruct (index v 0) as [v0|]; [|reflexivity].
  destruct (assert_string v0) as [s|]; [|reflexivity].
  destruct (ParseInt s) as [cur [e2|]]; [reflexivity|].
  destruct (index v 1) as [v1|]; [|reflexivity].
  destruct (assert_slice v1) as [ks|]; [|reflexivity].
  unfold ScanCmd_reset. now rewrite appendKeys_base.
Qed.

Lemma parseReply_reset (rd : Reader) (c : Cmder) :
  reset (fst (Cmder_parseReply rd c)) = reset c.
Proof.
  destruct c as [c|c|c|c|c|c|c|c|c|c|c|c|c|c|c]; simpl; f_equal;
    try apply ScanCmd_parseReply_reset;
    [ unfold Cmd_parseReply | unfold SliceCmd_parseReply | unfold StatusCmd_parseReply
    | unfold IntCmd_parseReply | unfold DurationCmd_parseReply | unfold BoolCmd_parseReply
    | unfold StringCmd_parseReply | unfold FloatCmd_parseReply
    | unfold StringSliceCmd_parseReply | unfold BoolSliceCmd_parseReply
    | unfold StringStringMapCmd_parseReply | unfold StringIntMapCmd_parseReply
    | unfold ZSliceCmd_parseReply | unfold ClusterSlotCmd_parseReply ];
    destruct (parseReply rd _) as [v [e|]]; simpl; try reflexivity;
    try (destruct (bool_decide _); simpl; try reflexivity);
    destruct v; simpl; try reflexivity.
  destruct (ParseFloat s); reflexivity.
Qed.

(** X13. [parseReply] assigns the value fields and the error field and
    nothing else, on every variant and on every path, a panic included: a
    [reset] after it gives the command a [reset] before it would have given,
    and arguments, cluster key and both timeouts are the same after the call
    as before. *)
Theorem parseReply_frame (rd : Reader) (c : Cmder) :
  reset (fst (Cmder_parseReply rd c)) = reset c /\
  args (fst (Cmder_parseReply rd c)) = args c /\
  clusterKey (fst (Cmder_parseReply rd c)) = clusterKey c /\
  readTimeout (fst (Cmder_parseReply rd c)) = readTimeout c /\
  writeTimeout (fst (Cmder_parseReply rd c)) = writeTimeout c.
Proof.
  split; [apply parseReply_reset|].
  apply same_reset_same_frame, parseReply_reset.
Qed.

Lemma reset_idemp (c : Cmder) : reset (reset c) = reset c.
Proof. now destruct c. Qed.

Lemma reset_setErr (e : option error) (c : Cmder) : reset (setErr e c) = reset c.
Proof. now destruct c. Qed.

(** X14. [reset] and [setErr] compose as expected: [reset] twice is [reset]
    once, a [reset] wipes an injected error, the last of two injected errors
    wins, and neither changes the cluster key or the two timeouts. *)
Theorem reset_setErr_compose (c : Cmder) (e1 e2 : option error) :
  reset (reset c) = reset c /\
  reset (setErr e1 c) = reset c /\
  setErr e2 (setErr e1 c) = setErr e2 c /\
  clusterKey (reset c) = clusterKey c /\
  clusterKey (setErr e1 c) = clusterKey c /\
  readTimeout (reset c) = readTimeout c /\ writeTimeout (reset c) = writeTimeout c /\
  readTimeout (setErr e1 c) = readTimeout c /\ writeTimeout (setErr e1 c) = writeTimeout c.
Proof. destruct c; repeat split. Qed.

(** X15. A command as its constructor builds it is a fixed point of [reset];
    so whatever was decoded into it or injected into it since, [reset] brings
    it back to the state its constructor left it in. *)
Theorem reset_restores_constructed (rd : Reader) (e : option error) (p : Z) (a : list string) :
  Forall (fun c => reset c = c /\
                   reset (fst (Cmder_parseReply rd (setErr e c))) = c /\
                   reset (setErr e (fst (Cmder_parseReply rd c))) = c)
    [ CCmd (NewCmd a); CSliceCmd (NewSliceCmd a); CStatusCmd (NewStatusCmd a);
      CStatusCmd (newKeylessStatusCmd a); CIntCmd (NewIntCmd a);
      CDurationCmd (NewDurationCmd p a); CBoolCmd (NewBoolCmd a);
      CStringCmd (NewStringCmd a); CFloatCmd (NewFloatCmd a);
      CStringSliceCmd (NewStringSliceCmd a); CBoolSliceCmd (NewBoolSliceCmd a);
      CStringStringMapCmd (NewStringStringMapCmd a);
      CStringIntMapCmd (NewStringIntMapCmd a); CZSliceCmd (NewZSliceCmd a);
      CScanCmd (NewScanCmd a); CClusterSlotCmd (NewClusterSlotCmd a) ].
Proof.
  repeat constructor;
    rewrite ?parseReply_reset, ?reset_setErr, ?parseReply_reset; reflexivity.
Qed.

(** ** The cluster key of a constructed command *)

Lemma clusterKey_lit_1 (a : list string) :
  baseCmd_clusterKey (baseCmd_lit a 1) = Ok (nth 1 a ""%string).
Proof.
  unfold baseCmd_clusterKey, baseCmd_lit. simpl _clusterKeyPos. simpl _args.
  destruct a as [|x [|y r]]; [reflexivity | reflexivity |].
  assert (H : (1 <? Z.of_nat (length (x :: y :: r))) = true).
  { apply Z.ltb_lt. rewrite !length_cons. lia. }
  rewrite H. simpl andb. cbv iota.
  apply index_lookup; [lia | reflexivity].
Qed.

(** X16. Which argument a constructed command routes on. A command built by
    [NewCmd] or [newKeylessStatusCmd] has the empty cluster key whatever its
    arguments; a command built by any other constructor has its second
    argument (the one after the command name) as cluster key, and the empty
    string when there is none. *)
Theorem constructed_clusterKey (p : Z) (a : list string) :
  clusterKey (CCmd (NewCmd a)) = Ok ""%string /\
  clusterKey (CStatusCmd (newKeylessStatusCmd a)) = Ok ""%string /\
  Forall (fun c => clusterKey c = Ok (nth 1 a ""%string))
    [ CSliceCmd (NewSliceCmd a); CStatusCmd (NewStatusCmd a); CIntCmd (NewIntCmd a);
      CDurationCmd (NewDurationCmd p a); CBoolCmd (NewBoolCmd a);
      CStringCmd (NewStringCmd a); CFloatCmd (NewFloatCmd a);
      CStringSliceCmd (NewStringSliceCmd a); CBoolSliceCmd (NewBoolSliceCmd a);
      CStringStringMapCmd (NewStringStringMapCmd a);
      CStringIntMapCmd (NewStringIntMapCmd a); CZSliceCmd (NewZSliceCmd a);
      CScanCmd (NewScanCmd a); CClusterSlotCmd (NewClusterSlotCmd a) ].
Proof.
  split; [reflexivity|]. split; [reflexivity|].
  repeat constructor; apply clusterKey_lit_1.
Qed.

(** ** Batches *)

Lemma resetCmds_lookup (cmds : list positive) (h : gmap positive Cmder) (l : positive) :
  resetCmds cmds h !! l =
  if decide (l ∈ cmds) then reset <$> h !! l else h !! l.
Proof.
  revert h. induction cmds as [|a rest IH]; intros h; simpl.
  - destruct (decide (l ∈ [])) as [Hin|_]; [|reflexivity].
    now apply elem_of_nil in Hin.
  - rewrite IH. destruct (decide (l = a)) as [->|Hne].
    + rewrite lookup_alter_eq.
      destruct (decide (a ∈ a :: rest)) as [_|Hn]; [|exfalso; apply Hn; left].
      destruct (decide (a ∈ rest)); [|reflexivity].
      destruct (h !! a); simpl; [|reflexivity]. now rewrite reset_idemp.
    + rewrite lookup_alter_ne by congruence.
      destruct (decide (l ∈ rest)) as [Hin|Hnin];
        destruct (decide (l ∈ a :: rest)) as [Hin'|Hnin']; try reflexivity.
      * exfalso. apply Hnin'. now right.
      * exfalso. apply elem_of_cons in Hin' as [?|?]; [congruence|contradiction].
Qed.

Lemma reset_pristine (c : Cmder) :
  Err (reset c) = None /\ Forall (fun v => isZero v = true) (Val (reset c)) /\
  args (reset c) = args c /\ clusterKey (reset c) = clusterKey c.
Proof.
  destruct c; simpl;
    (split; [reflexivity|]);
    (split; [repeat constructor; try (apply bool_decide_eq_true_2; reflexivity) |]);
    split; reflexivity.
Qed.

(** X17. After [resetCmds], every command of the batch, however often it
    occurs in it, has a nil error and the zero value of its result type, with
    its arguments and its cluster key unchanged; a command outside the batch
    is not touched. *)
Theorem resetCmds_clears_all (h : gmap positive Cmder) (cmds : list positive) :
  (forall l, l ∈ cmds -> is_Some (h !! l)) ->
  (forall l, l ∈ cmds ->
     exists c0 c, h !! l = Some c0 /\ resetCmds cmds h !! l = Some c /\
                  Err c = None /\ Forall (fun v => isZero v = true) (Val c) /\
                  args c = args c0 /\ clusterKey c = clusterKey c0) /\
  (forall l, l ∉ cmds -> resetCmds cmds h !! l = h !! l).
Proof.
  intros Halloc. split.
  - intros l Hin. destruct (Halloc l Hin) as [c0 Hc0].
    exists c0, (reset c0). rewrite resetCmds_lookup, Hc0.
    destruct (decide (l ∈ cmds)); [|contradiction].
    split; [reflexivity|]. split; [reflexivity|]. apply reset_pristine.
  - intros l Hnin. rewrite resetCmds_lookup.
    now destruct (decide (l ∈ cmds)).
Qed.

(** X18. Only the set of commands in a batch matters to [setCmdsErr] and to
    [resetCmds]: two batches that name the same commands, in whatever order
    and however often, leave the same store. *)
Theorem batches_by_membership (a b : list positive) (e : option error)
    (h : gmap positive Cmder) :
  (forall l, l ∈ a <-> l ∈ b) ->
  setCmdsErr a e h = setCmdsErr b e h /\ resetCmds a h = resetCmds b h.
Proof.
  intros Hab. split; apply map_eq; intros l.
  - rewrite !setCmdsErr_lookup.
    destruct (decide (l ∈ a)) as [Ha|Ha], (decide (l ∈ b)) as [Hb|Hb];
      try reflexivity; exfalso; [apply Hb, Hab, Ha | apply Ha, Hab, Hb].
  - rewrite !resetCmds_lookup.
    destruct (decide (l ∈ a)) as [Ha|Ha], (decide (l ∈ b)) as [Hb|Hb];
      try reflexivity; exfalso; [apply Hb, Hab, Ha | apply Ha, Hab, Hb].
Qed.

(** X19. Batches compose. Failing a batch with one error and then with
    another leaves what failing it with the second alone leaves; resetting a
    failed batch leaves what resetting it alone leaves; and failing two
    batches one after the other is failing their concatenation. *)
Theorem batches_compose (a b : list positive) (e1 e2 : option error)
    (h : gmap positive Cmder) :
  setCmdsErr a e2 (setCmdsErr a e1 h) = setCmdsErr a e2 h /\
  resetCmds a (setCmdsErr a e1 h) = resetCmds a h /\
  setCmdsErr (a ++ b) e1 h = setCmdsErr b e1 (setCmdsErr a e1 h).
Proof.
  repeat split.
  - apply map_eq; intros l. rewrite !setCmdsErr_lookup.
    destruct (decide (l ∈ a)); [|reflexivity].
    destruct (h !! l) as [c|]; simpl; [|reflexivity].
    f_equal. now destruct c.
  - apply map_eq; intros l. rewrite !resetCmds_lookup, setCmdsErr_lookup.
    destruct (decide (l ∈ a)); [|reflexivity].
    destruct (h !! l) as [c|]; simpl; [|reflexivity].
    now rewrite reset_setErr.
  - revert h. induction a as [|x rest IH]; intros h; simpl; [reflexivity|].
    apply IH.
Qed.

(** ** String and the coercion accessors *)

Lemma Cmder_String_cmdString (c : Cmder) : Cmder_String c = cmdString c (stringed c).
Proof. now destruct c. Qed.

(** X20. What [String] shows, on every variant. A command that holds an
    error shows its arguments joined by spaces, a colon and the message of
    the error, and nothing of its value. A command without error shows its
    arguments and the printed value; only a [Cmd] whose value is the nil
    interface shows its arguments alone. *)
Theorem String_shows (c : Cmder) :
  (forall e : error, Err c = Some e ->
     Cmder_String c = Join (args c) " " +:+ ": " +:+ Error e) /\
  (Err c = None -> stringed c <> INil ->
     Cmder_String c = Join (args c) " " +:+ ": " +:+ Sprint (stringed c)) /\
  (Err c = None -> stringed c = INil ->
     Cmder_String c = Join (args c) " " /\ exists g : Cmd, c = CCmd g).
Proof.
  rewrite Cmder_String_cmdString. unfold cmdString.
  split; [|split].
  - intros e He. now rewrite He.
  - intros He Hv. rewrite He. destruct (stringed c); try reflexivity. now contradiction Hv.
  - intros He Hv. rewrite He, Hv. split; [reflexivity|].
    destruct c as [c|c|c|c|c|c|c|c|c|c|c|c|c|c|c]; simpl in Hv; try discriminate Hv.
    now exists c.
Qed.

(** X21. The coercion accessors after a decode. After a decode that failed
    with an error, [Int64], [Uint64] and [Float64] return zero and that error,
    without parsing anything; after a decode of a string into a command that
    held no error, they return what the parsers return on that string. *)
Theorem StringCmd_accessors (rdErr rdOk : Reader) (cmd : StringCmd) (v : iface)
    (e : error) (s : string) :
  parseReply rdErr None = (v, Some e) ->
  parseReply rdOk None = (IString s, None) ->
  err (StringCmd_base cmd) = None ->
  (StringCmd_Int64 (fst (StringCmd_parseReply rdErr cmd)) = (0, Some e) /\
   StringCmd_Uint64 (fst (StringCmd_parseReply rdErr cmd)) = (0, Some e) /\
   StringCmd_Float64 (fst (StringCmd_parseReply rdErr cmd))
     = (SpecFloat.S754_zero false, Some e)) /\
  (StringCmd_Int64 (fst (StringCmd_parseReply rdOk cmd)) = ParseInt s /\
   StringCmd_Uint64 (fst (StringCmd_parseReply rdOk cmd)) = ParseUint s /\
   StringCmd_Float64 (fst (StringCmd_parseReply rdOk cmd)) = ParseFloat s).
Proof.
  intros HE HO Hnil. unfold StringCmd_parseReply. rewrite HE, HO. simpl.
  unfold StringCmd_Int64, StringCmd_Uint64, StringCmd_Float64. simpl.
  rewrite Hnil. repeat split.
Qed.

End Commands.

(** * The properties on concrete commands *)

Lemma parseReply_unchecked_assertion_witness :
  decoded (IString "OK", None) (parser_of (CIntCmd sampleIntCmd)) = (IString "OK", None) /\
  Cmder_parseReply decodedReply decoded rejectInt rejectFloat
    (IString "OK", None) (CIntCmd sampleIntCmd) = (CIntCmd sampleIntCmd, Panic).
Proof.
  split; [reflexivity|].
  apply (parseReply_unchecked_assertion decodedReply decoded rejectInt rejectFloat
           (IString "OK", None) (CIntCmd sampleIntCmd) (IString "OK")
           (fun v => match v with IInt64 _ => true | _ => false end));
    reflexivity.
Defined.

(** An Int command that is handed a status string, or an array, panics: it
    neither stores an error nor returns. *)
Lemma IntCmd_wrong_shape_panics :
  Err (CIntCmd sampleIntCmd) = None /\
  Cmder_parseReply decodedReply decoded rejectInt rejectFloat
    (IString "OK", None) (CIntCmd sampleIntCmd) = (CIntCmd sampleIntCmd, Panic) /\
  Cmder_parseReply decodedReply decoded rejectInt rejectFloat
    (ISlice [IInt64 1], None) (CIntCmd sampleIntCmd) = (CIntCmd sampleIntCmd, Panic).
Proof. repeat split. Qed.

(** A Bool command that is handed an array returns an error to its caller but
    does not assign it to the error field: [Err()] stays nil. *)
Lemma BoolCmd_wrong_shape_error_not_stored :
  BoolCmd_parseReply decodedReply decoded (ISlice [IInt64 1], None) sampleBoolCmd =
    (sampleBoolCmd, Ok (Some (errorString "got %!T(MISSING), wanted int64 or string"))) /\
  Err (CBoolCmd sampleBoolCmd) = None.
Proof. split; reflexivity. Qed.

Lemma Reply_of_stored_error_witness :
  formats (CIntCmd nilIntCmd) = true /\
  Err (CIntCmd nilIntCmd) = Some Nil /\
  Reply renderFloat renderMs renderSec sampleTypeAssertedErr (CIntCmd nilIntCmd) =
    bytes_of ("$-1" +:+ CRLF).
Proof.
  split; [reflexivity|]. split; [reflexivity|].
  apply (Reply_of_stored_error renderFloat renderMs renderSec sampleTypeAssertedErr
           (CIntCmd nilIntCmd) Nil); reflexivity.
Defined.

(** A Generic command that holds [Nil] replies with no bytes, not with
    [$-1\r\n]; and an Int command that holds an error other than [Nil] whose
    message is [redis: nil] replies with [$-1\r\n], not with an error frame. *)
Lemma Reply_of_stored_error_counterexample :
  (Err (CCmd nilGeneric) = Some Nil /\
   Reply renderFloat renderMs renderSec sampleTypeAssertedErr (CCmd nilGeneric) = [] /\
   Reply renderFloat renderMs renderSec sampleTypeAssertedErr (CCmd nilGeneric)
     <> bytes_of ("$-1" +:+ CRLF)) /\
  (Err (CIntCmd lookalikeIntCmd) = Some (errorString "redis: nil") /\
   errorString "redis: nil" <> Nil /\
   Reply renderFloat renderMs renderSec sampleTypeAssertedErr (CIntCmd lookalikeIntCmd)
     = bytes_of ("$-1" +:+ CRLF) /\
   Reply renderFloat renderMs renderSec sampleTypeAssertedErr (CIntCmd lookalikeIntCmd)
     <> bytes_of ("-" +:+ "redis: nil" +:+ CRLF)).
Proof. repeat split; discriminate. Qed.

Lemma BoolCmd_parseReply_Nil_witness :
  decoded (INil, Some Nil) None = (INil, Some Nil) /\
  decoded (IInt64 1, None) None = (IInt64 1, None) /\
  decoded (IString "OK", None) None = (IString "OK", None) /\
  Err (CBoolCmd sampleBoolCmd) = None /\
  Err (CBoolCmd (fst (BoolCmd_parseReply decodedReply decoded (INil, Some Nil) sampleBoolCmd)))
    = None.
Proof.
  do 4 (split; [reflexivity|]).
  apply (proj2 (proj1 (BoolCmd_parseReply_Nil decodedReply decoded
                         (INil, Some Nil) (IInt64 1, None) (IString "OK", None) INil
                         sampleBoolCmd eq_refl eq_refl eq_refl))).
  reflexivity.
Defined.

(** A Bool command that holds an error from an earlier round trip still holds
    it after a decode that yields [Nil]: [Err()] is not nil. *)
Lemma BoolCmd_Nil_keeps_held_error :
  Err (CBoolCmd failedBoolCmd) = Some wrongType /\
  BoolCmd_parseReply decodedReply decoded (INil, Some Nil) failedBoolCmd
    = (failedBoolCmd, Ok None) /\
  Err (CBoolCmd (fst (BoolCmd_parseReply decodedReply decoded (INil, Some Nil) failedBoolCmd)))
    = Some wrongType /\
  Err (CBoolCmd (fst (BoolCmd_parseReply decodedReply decoded (INil, Some Nil) failedBoolCmd)))
    <> None.
Proof. repeat split. discriminate. Qed.

Lemma setCmdsErr_sets_all_witness :
  (forall l, l ∈ sampleBatch -> is_Some (sampleStore !! l)) /\
  exists c0 c,
    sampleStore !! 1%positive = Some c0 /\
    setCmdsErr sampleBatch connReset sampleStore !! 1%positive = Some c /\
    Err c = connReset /\ Val c = Val c0 /\ args c = args c0.
Proof.
  assert (Halloc : forall l, l ∈ sampleBatch -> is_Some (sampleStore !! l)).
  { intros l Hl. unfold sampleBatch in Hl.
    repeat (apply elem_of_cons in Hl as [->|Hl]); try (vm_compute; eauto).
    now apply elem_of_nil in Hl. }
  split; [exact Halloc|].
  apply (proj1 (setCmdsErr_sets_all sampleStore sampleBatch connReset Halloc) 1%positive).
  unfold sampleBatch. left.
Defined.

Lemma clusterKey_configured_witness :
  0 < _clusterKeyPos (base (CStringCmd sampleStringCmd)) /\
  args (CStringCmd sampleStringCmd)
    !! Z.to_nat (_clusterKeyPos (base (CStringCmd sampleStringCmd))) = Some "user:1"%string /\
  clusterKey (CStringCmd sampleStringCmd) = Ok "user:1"%string.
Proof.
  split; [reflexivity|]. split; [reflexivity|].
  apply (proj1 (clusterKey_configured (CStringCmd sampleStringCmd) "user:1")); reflexivity.
Defined.

Lemma clusterKey_total_witness :
  Z.of_nat (length (args (CStatusCmd samplePing))) <= _clusterKeyPos (base (CStatusCmd samplePing)) /\
  clusterKey (CStatusCmd samplePing) = Ok ""%string.
Proof.
  assert (H : Z.of_nat (length (args (CStatusCmd samplePing)))
              <= _clusterKeyPos (base (CStatusCmd samplePing))) by (simpl; lia).
  split; [exact H|].
  apply (proj2 (clusterKey_total (CStatusCmd samplePing))). left. exact H.
Defined.

Lemma FormatSlice_mixed_witness :
  renderFloat float_1_5 = "1.5"%string /\
  FormatSlice renderFloat sampleTypeAssertedErr [IString "a"; IInt 1; IFloat64 float_1_5; INil] =
    bytes_of ("*4" +:+ CRLF +:+
              "$1" +:+ CRLF +:+ "a" +:+ CRLF +:+
              "$1" +:+ CRLF +:+ "1" +:+ CRLF +:+
              "$3" +:+ CRLF +:+ "1.5" +:+ CRLF +:+
              "$-1" +:+ CRLF).
Proof.
  split; [reflexivity|].
  apply (proj1 (FormatSlice_mixed renderFloat sampleTypeAssertedErr eq_refl)).
Defined.

(** * The further properties on concrete commands *)

Lemma FormatSlice_frames_witness :
  Forall (fun v => unsupported v = false) [IString "a"; INil] /\
  FormatSlice renderFloat sampleTypeAssertedErr [IString "a"; INil] =
    bytes_of ("*" +:+ Itoa 2 +:+ CRLF)
    ++ List.concat (map (FormatSlice_frame renderFloat) [IString "a"; INil]).
Proof.
  assert (H : Forall (fun v => unsupported v = false) [IString "a"; INil])
    by (repeat constructor).
  split; [exact H|].
  apply (FormatSlice_frames renderFloat sampleTypeAssertedErr _ H).
Defined.

Lemma Reply_ends_with_CRLF_witness :
  formats (CIntCmd sampleIntCmd) = true /\
  ends_with_CRLF (Reply renderFloat renderMs renderSec sampleTypeAssertedErr (CIntCmd sampleIntCmd)).
Proof.
  split; [reflexivity|].
  apply (Reply_ends_with_CRLF renderFloat renderMs renderSec sampleTypeAssertedErr
           (CIntCmd sampleIntCmd)); reflexivity.
Defined.

Lemma parseReply_stores_decoder_error_witness :
  decoded (INil, Some wrongType) (parser_of (CIntCmd sampleIntCmd)) = (INil, Some wrongType) /\
  exists c' : Cmder,
    Cmder_parseReply decodedReply decoded rejectInt rejectFloat
      (INil, Some wrongType) (CIntCmd sampleIntCmd) = (c', Ok (Some wrongType)) /\
    Err c' = Some wrongType /\
    args c' = args (CIntCmd sampleIntCmd) /\
    Val c' = Val (CIntCmd sampleIntCmd).
Proof.
  split; [reflexivity|].
  apply (parseReply_stores_decoder_error decodedReply decoded rejectInt rejectFloat
           (INil, Some wrongType) (CIntCmd sampleIntCmd) INil wrongType);
    [reflexivity | intros b Hb; discriminate Hb].
Defined.

Lemma parseReply_stores_asserted_witness :
  decoded (IInt64 5, None) (parser_of (CIntCmd sampleIntCmd)) = (IInt64 5, None) /\
  exists c' : Cmder,
    Cmder_parseReply decodedReply decoded rejectInt rejectFloat
      (IInt64 5, None) (CIntCmd sampleIntCmd) = (c', Ok None) /\
    Val c' = [IInt64 5] /\
    Err c' = Err (CIntCmd sampleIntCmd) /\
    args c' = args (CIntCmd sampleIntCmd).
Proof.
  split; [reflexivity|].
  apply (parseReply_stores_asserted decodedReply decoded rejectInt rejectFloat
           (IInt64 5, None) (CIntCmd sampleIntCmd) (IInt64 5)
           (fun v => match v with IInt64 _ => true | _ => false end));
    reflexivity.
Defined.

Lemma Reply_after_parseReply_witness :
  Err (CIntCmd sampleIntCmd) = None /\
  Reply renderFloat renderMs renderSec sampleTypeAssertedErr
    (fst (Cmder_parseReply decodedReply decoded rejectInt rejectFloat
            (IInt64 5, None) (CIntCmd sampleIntCmd))) = FormatInt 5.
Proof.
  split; [reflexivity|].
  apply (proj1 (Reply_after_parseReply decodedReply decoded rejectInt rejectFloat
                  renderFloat renderMs renderSec sampleTypeAssertedErr
                  (IInt64 5, None) (CIntCmd sampleIntCmd) (IInt64 5)
                  (fun v => match v with IInt64 _ => true | _ => false end)
                  eq_refl eq_refl eq_refl eq_refl eq_refl)).
  reflexivity.
Defined.

Lemma Reply_after_Nil_witness :
  decoded (INil, Some Nil) None = (INil, Some Nil) /\
  Err (CBoolCmd sampleBoolCmd) = None /\
  BoolCmd_Reply (fst (BoolCmd_parseReply decodedReply decoded (INil, Some Nil) sampleBoolCmd))
    = bytes_of (":0" +:+ CRLF) /\
  IntCmd_Reply (fst (IntCmd_parseReply decodedReply decoded (INil, Some Nil) sampleIntCmd))
    = bytes_of ("$-1" +:+ CRLF).
Proof.
  split; [reflexivity|]. split; [reflexivity|].
  apply (Reply_after_Nil decodedReply decoded (INil, Some Nil) INil sampleBoolCmd sampleIntCmd);
    reflexivity.
Defined.

Lemma DurationCmd_parseReply_scaled_witness :
  decoded (IInt64 5, None) None = (IInt64 5, None) /\
  - 2 ^ 63 <= 5 * precision sampleDurationCmd < 2 ^ 63 /\
  DurationCmd_val (fst (DurationCmd_parseReply decodedReply decoded (IInt64 5, None)
                          sampleDurationCmd)) = 5 * precision sampleDurationCmd.
Proof.
  assert (Hfit : - 2 ^ 63 <= 5 * precision sampleDurationCmd < 2 ^ 63) by (simpl; lia).
  split; [reflexivity|]. split; [exact Hfit|].
  apply (proj2 (proj2 (proj2 (DurationCmd_parseReply_scaled decodedReply decoded
                                (IInt64 5, None) sampleDurationCmd 5 eq_refl)))).
  exact Hfit.
Defined.

Lemma ScanCmd_parseReply_appends_witness :
  acceptThree "3" = (3, None) /\
  ScanCmd_parseReply decodedReply decoded acceptThree
    (ISlice [IString "3"; ISlice (map IString ["k1"; "k2"]%string)], None) sampleScanCmd =
  (mkScanCmd (with_err None (ScanCmd_base sampleScanCmd)) 3
     (keys sampleScanCmd ++ ["k1"; "k2"]%string), Ok None).
Proof.
  split; [reflexivity|].
  apply (ScanCmd_parseReply_appends decodedReply decoded acceptThree
           (ISlice [IString "3"; ISlice (map IString ["k1"; "k2"]%string)], None)
           sampleScanCmd "3" ["k1"; "k2"]%string [] 3); reflexivity.
Defined.

Lemma ScanCmd_parseReply_malformed_witness :
  acceptThree "x" = (0, Some (errorString "invalid syntax")) /\
  acceptThree "3" = (3, None) /\
  ScanCmd_parseReply decodedReply decoded acceptThree (ISlice [], None) sampleScanCmd
    = (sampleScanCmd, Panic) /\
  ScanCmd_parseReply decodedReply decoded acceptThree (ISlice [IString "x"], None) sampleScanCmd
    = (mkScanCmd (with_err (Some (errorString "invalid syntax")) (ScanCmd_base sampleScanCmd))
         0 (keys sampleScanCmd), Ok (Some (errorString "invalid syntax"))) /\
  ScanCmd_parseReply decodedReply decoded acceptThree (ISlice [IString "3"], None) sampleScanCmd
    = (mkScanCmd (with_err None (ScanCmd_base sampleScanCmd)) 3 (keys sampleScanCmd), Panic).
Proof.
  split; [reflexivity|]. split; [reflexivity|].
  apply (ScanCmd_parseReply_malformed decodedReply decoded acceptThree
           (ISlice [], None) (ISlice [IString "x"], None) (ISlice [IString "3"], None)
           sampleScanCmd "x" "3" [] 0 3 (errorString "invalid syntax")); reflexivity.
Defined.

Lemma ScanCmd_parseReply_partial_witness :
  acceptThree "3" = (3, None) /\
  assert_string (IInt64 7) = Panic /\
  ScanCmd_parseReply decodedReply decoded acceptThree
    (ISlice [IString "3"; ISlice (map IString ["k1"]%string ++ IInt64 7 :: [IString "k3"])], None)
    sampleScanCmd =
  (mkScanCmd (with_err None (ScanCmd_base sampleScanCmd)) 3
     (keys sampleScanCmd ++ ["k1"]%string), Panic).
Proof.
  split; [reflexivity|]. split; [reflexivity|].
  apply (ScanCmd_parseReply_partial decodedReply decoded acceptThree
           (ISlice [IString "3"; ISlice (map IString ["k1"]%string ++ IInt64 7 :: [IString "k3"])],
            None)
           sampleScanCmd "3" ["k1"]%string (IInt64 7) [IString "k3"] 3); reflexivity.
Defined.

Lemma resetCmds_clears_all_witness :
  (forall l, l ∈ sampleBatch -> is_Some (sampleStore !! l)) /\
  exists c0 c,
    sampleStore !! 2%positive = Some c0 /\
    resetCmds sampleBatch sampleStore !! 2%positive = Some c /\
    Err c = None /\ Forall (fun v => isZero v = true) (Val c) /\
    args c = args c0 /\ clusterKey c = clusterKey c0.
Proof.
  assert (Halloc : forall l, l ∈ sampleBatch -> is_Some (sampleStore !! l)).
  { intros l Hl. unfold sampleBatch in Hl.
    repeat (apply elem_of_cons in Hl as [->|Hl]); try (vm_compute; eauto).
    now apply elem_of_nil in Hl. }
  split; [exact Halloc|].
  apply (proj1 (resetCmds_clears_all sampleStore sampleBatch Halloc) 2%positive).
  unfold sampleBatch. right. left.
Defined.

Lemma batches_by_membership_witness :
  (forall l, l ∈ sampleBatch <-> l ∈ [2%positive; 1%positive]) /\
  setCmdsErr sampleBatch connReset sampleStore
    = setCmdsErr [2%positive; 1%positive] connReset sampleStore.
Proof.
  assert (Hsame : forall l, l ∈ sampleBatch <-> l ∈ [2%positive; 1%positive]).
  { intros l. unfold sampleBatch. rewrite !elem_of_cons, !elem_of_nil. tauto. }
  split; [exact Hsame|].
  apply (proj1 (batches_by_membership sampleBatch [2%positive; 1%positive] connReset
                  sampleStore Hsame)).
Defined.

Lemma String_shows_witness :
  Err (CIntCmd nilIntCmd) = Some Nil /\
  Cmder_String samplePrint (CIntCmd nilIntCmd) = "INCR hits: redis: nil"%string.
Proof.
  split; [reflexivity|].
  apply (proj1 (String_shows samplePrint (CIntCmd nilIntCmd)) Nil). reflexivity.
Defined.

Lemma StringCmd_accessors_witness :
  decoded (INil, Some wrongType) None = (INil, Some wrongType) /\
  decoded (IString "3", None) None = (IString "3", None) /\
  err (StringCmd_base sampleStringCmd) = None /\
  StringCmd_Int64 rejectInt
    (fst (StringCmd_parseReply decodedReply decoded (INil, Some wrongType) sampleStringCmd))
    = (0, Some wrongType) /\
  StringCmd_Int64 acceptThree
    (fst (StringCmd_parseReply decodedReply decoded (IString "3", None) sampleStringCmd))
    = (3, None).
Proof.
  do 3 (split; [reflexivity|]).
  split.
  - apply (proj1 (StringCmd_accessors decodedReply decoded rejectInt rejectFloat rejectInt
                    (INil, Some wrongType) (IString "3", None) sampleStringCmd INil wrongType "3"
                    eq_refl eq_refl eq_refl)).
  - apply (proj2 (StringCmd_accessors decodedReply decoded acceptThree rejectFloat rejectInt
                    (INil, Some wrongType) (IString "3", None) sampleStringCmd INil wrongType "3"
                    eq_refl eq_refl eq_refl)).
Defined.
